(** * Pixshop editor: edit history and remote-operation gateway

    A shallow embedding of [src/App.tsx] (the React component that owns the
    edit history) and of [src/services/geminiService.ts] (the adapter around
    the hosted image and video models), with the properties the
    specification states about them.

    Conventions of the embedding.
    - JavaScript numbers that the code uses as indices and counters are [Z].
    - JavaScript strings are [string]: sequences of code units below 256.
    - [undefined] and [null] are [None].
    - A [throw] is the [Throw] constructor of [Outcome]; an [async] function
      is run to completion, its awaited results being supplied by an
      environment record [Env] that stands for the browser and the network.
    - A React handler is a function on [AppState]: it reads the values its
      closure captured (the state it is applied to) and queues setter calls,
      which are applied in program order. *)

From Stdlib Require Import ZArith Ascii DecimalString.
From stdpp Require Import base list strings.

Local Open Scope Z_scope.

(** ** JavaScript values *)

(** A thrown value: an [Error] object with its [message], or anything else
    ([err instanceof Error] is false for it). *)
Inductive Thrown : Type :=
  | ErrorObj (message : string)
  | NonError.

Inductive Outcome (A : Type) : Type :=
  | Return (a : A)
  | Throw (e : Thrown).
Arguments Return {A} a.
Arguments Throw {A} e.

Definition bindO {A B} (m : Outcome A) (k : A → Outcome B) : Outcome B :=
  match m with
  | Return a => k a
  | Throw e => Throw e
  end.

Notation "'let!' v ':=' m 'in' k" := (bindO m (λ v, k))
  (at level 10, v name, m at level 100, k at level 200, only parsing).

(** Optional chaining [o?.f] on a possibly undefined value. *)
Definition chain {A B} (o : option A) (f : A → option B) : option B :=
  match o with
  | Some a => f a
  | None => None
  end.

Infix "?>" := chain (at level 50, left associativity).

(** [err instanceof Error ? err.message : 'An unknown error occurred.'] *)
Definition errorMessageOf (err : Thrown) : string :=
  match err with
  | ErrorObj m => m
  | NonError => "An unknown error occurred."
  end.

(** A browser [File]: name, MIME type and contents (a byte array). *)
Record File : Type := mkFile {
  name : string;
  type : string;
  bytes : list Z
}.

(** [s.startsWith(p)] *)
Fixpoint startsWith (p s : string) : bool :=
  match p, s with
  | EmptyString, _ => true
  | String a p', String b s' => if decide (a = b) then startsWith p' s' else false
  | String _ _, EmptyString => false
  end.

(** The [File] constructor normalises the [type] option: a type with a
    character outside U+0020..U+007E becomes the empty string, and any
    other is converted to ASCII lower case. *)
Definition isPrintableAscii (c : ascii) : bool :=
  let n := Z.of_N (N_of_ascii c) in bool_decide (32 ≤ n ≤ 126).

Definition toAsciiLower (c : ascii) : ascii :=
  let n := Z.of_N (N_of_ascii c) in
  if bool_decide (65 ≤ n ≤ 90) then ascii_of_N (Z.to_N (n + 32)) else c.

Fixpoint allChars (p : ascii → bool) (s : string) : bool :=
  match s with
  | EmptyString => true
  | String c r => p c && allChars p r
  end.

Fixpoint mapChars (f : ascii → ascii) (s : string) : string :=
  match s with
  | EmptyString => EmptyString
  | String c r => String (f c) (mapChars f r)
  end.

Definition normalizeType (t : string) : string :=
  if allChars isPrintableAscii t then mapChars toAsciiLower t else "".

(** A type as the constructor leaves it: printable ASCII without upper-case
    letters. *)
Definition isAsciiUpper (c : ascii) : bool :=
  let n := Z.of_N (N_of_ascii c) in bool_decide (65 ≤ n ≤ 90).

Definition isNormalType (t : string) : bool :=
  allChars (λ c, isPrintableAscii c && negb (isAsciiUpper c)) t.

(** [new File([fileBits], fileName, {type})] *)
Definition newFile (fileBits : list Z) (fileName mime : string) : File :=
  {| name := fileName; type := normalizeType mime; bytes := fileBits |}.

(** White space removed by [String.prototype.trim], among code units
    below 256: TAB, LF, VT, FF, CR, SPACE and NBSP. *)
Definition isTrimSpace (c : ascii) : bool :=
  match c with
  | "009" | "010" | "011" | "012" | "013" | " " | "160" => true
  | _ => false
  end%char.

Fixpoint trimStart (s : string) : string :=
  match s with
  | EmptyString => EmptyString
  | String c r => if isTrimSpace c then trimStart r else s
  end.

Fixpoint trimEnd (s : string) : string :=
  match s with
  | EmptyString => EmptyString
  | String c r =>
      match trimEnd r with
      | EmptyString => if isTrimSpace c then EmptyString else String c EmptyString
      | r' => String c r'
      end
  end.

Definition trim (s : string) : string := trimEnd (trimStart s).

(** Truthiness of a string: every string but the empty one. *)
Definition truthyStr (s : string) : bool :=
  match s with
  | EmptyString => false
  | _ => true
  end.

(** [`${n}`] for an integer [n]. *)
Definition showZ (n : Z) : string := NilZero.string_of_int (Z.to_int n).

(** [a[i] ?? null]: indexing an array with a number. *)
Definition jsIndex {A} (a : list A) (i : Z) : option A :=
  if decide (i < 0) then None else a !! Z.to_nat i.

(** [a.slice(0, e)]: a negative end counts from the end of the array, and
    the end is clamped to the length. *)
Definition slice0 {A} (a : list A) (e : Z) : list A :=
  let len := Z.of_nat (length a) in
  let final := if decide (e < 0) then Z.max (len + e) 0 else Z.min e len in
  take (Z.to_nat final) a.

(** ** The component state of [App] *)

Record Hotspot : Type := mkHotspot { x : Z; y : Z }.

Record CropRect : Type := mkCrop {
  cropX : Z; cropY : Z; cropWidth : Z; cropHeight : Z
}.

Inductive Tab : Type :=
  | retouch | adjust | filters | cropTab | threeD | animate
  | removeBg | restore | groupRestore.

(** One field per [useState] hook of [App]. *)
Record AppState : Type := mkApp {
  history : list File;
  historyIndex : Z;
  prompt : string;
  animatePrompt : string;
  isLoading : bool;
  loadingMessage : string;
  error : option string;
  editHotspot : option Hotspot;
  displayHotspot : option Hotspot;
  activeTab : Tab;
  crop : option CropRect;
  completedCrop : option CropRect;
  aspect : option Z;
  isComparing : bool
}.

(** [useState] initial values. *)
Definition initialState : AppState :=
  {| history := []; historyIndex := -1; prompt := ""; animatePrompt := "";
     isLoading := false; loadingMessage := "AI is working its magic...";
     error := None; editHotspot := None; displayHotspot := None;
     activeTab := retouch; crop := None; completedCrop := None;
     aspect := None; isComparing := false |}.

(** The setters returned by the hooks. *)
Definition setHistory (v : list File) (s : AppState) : AppState :=
  mkApp v (historyIndex s) (prompt s) (animatePrompt s) (isLoading s)
    (loadingMessage s) (error s) (editHotspot s) (displayHotspot s)
    (activeTab s) (crop s) (completedCrop s) (aspect s) (isComparing s).
Definition setHistoryIndex (v : Z) (s : AppState) : AppState :=
  mkApp (history s) v (prompt s) (animatePrompt s) (isLoading s)
    (loadingMessage s) (error s) (editHotspot s) (displayHotspot s)
    (activeTab s) (crop s) (completedCrop s) (aspect s) (isComparing s).
Definition setPrompt (v : string) (s : AppState) : AppState :=
  mkApp (history s) (historyIndex s) v (animatePrompt s) (isLoading s)
    (loadingMessage s) (error s) (editHotspot s) (displayHotspot s)
    (activeTab s) (crop s) (completedCrop s) (aspect s) (isComparing s).
Definition setAnimatePrompt (v : string) (s : AppState) : AppState :=
  mkApp (history s) (historyIndex s) (prompt s) v (isLoading s)
    (loadingMessage s) (error s) (editHotspot s) (displayHotspot s)
    (activeTab s) (crop s) (completedCrop s) (aspect s) (isComparing s).
Definition setIsLoading (v : bool) (s : AppState) : AppState :=
  mkApp (history s) (historyIndex s) (prompt s) (animatePrompt s) v
    (loadingMessage s) (error s) (editHotspot s) (displayHotspot s)
    (activeTab s) (crop s) (completedCrop s) (aspect s) (isComparing s).
Definition setLoadingMessage (v : string) (s : AppState) : AppState :=
  mkApp (history s) (historyIndex s) (prompt s) (animatePrompt s) (isLoading s)
    v (error s) (editHotspot s) (displayHotspot s)
    (activeTab s) (crop s) (completedCrop s) (aspect s) (isComparing s).
Definition setError (v : option string) (s : AppState) : AppState :=
  mkApp (history s) (historyIndex s) (prompt s) (animatePrompt s) (isLoading s)
    (loadingMessage s) v (editHotspot s) (displayHotspot s)
    (activeTab s) (crop s) (completedCrop s) (aspect s) (isComparing s).
Definition setEditHotspot (v : option Hotspot) (s : AppState) : AppState :=
  mkApp (history s) (historyIndex s) (prompt s) (animatePrompt s) (isLoading s)
    (loadingMessage s) (error s) v (displayHotspot s)
    (activeTab s) (crop s) (completedCrop s) (aspect s) (isComparing s).
Definition setDisplayHotspot (v : option Hotspot) (s : AppState) : AppState :=
  mkApp (history s) (historyIndex s) (prompt s) (animatePrompt s) (isLoading s)
    (loadingMessage s) (error s) (editHotspot s) v
    (activeTab s) (crop s) (completedCrop s) (aspect s) (isComparing s).
Definition setActiveTab (v : Tab) (s : AppState) : AppState :=
  mkApp (history s) (historyIndex s) (prompt s) (animatePrompt s) (isLoading s)
    (loadingMessage s) (error s) (editHotspot s) (displayHotspot s)
    v (crop s) (completedCrop s) (aspect s) (isComparing s).
Definition setCrop (v : option CropRect) (s : AppState) : AppState :=
  mkApp (history s) (historyIndex s) (prompt s) (animatePrompt s) (isLoading s)
    (loadingMessage s) (error s) (editHotspot s) (displayHotspot s)
    (activeTab s) v (completedCrop s) (aspect s) (isComparing s).
Definition setCompletedCrop (v : option CropRect) (s : AppState) : AppState :=
  mkApp (history s) (historyIndex s) (prompt s) (animatePrompt s) (isLoading s)
    (loadingMessage s) (error s) (editHotspot s) (displayHotspot s)
    (activeTab s) (crop s) v (aspect s) (isComparing s).

(** Setter calls are written in program order: [s |> f |> g] is [g (f s)]. *)
Notation "s |> f" := (f s) (at level 45, left associativity, only parsing).

(** ** The history store ([src/App.tsx]) *)

(** [const currentImage = history[historyIndex] ?? null] *)
Definition currentImage (s : AppState) : option File :=
  jsIndex (history s) (historyIndex s).

(** [const originalImage = history[0] ?? null] *)
Definition originalImage (s : AppState) : option File :=
  jsIndex (history s) 0.

(** [currentImage?.type.startsWith('video/')] *)
Definition isCurrentItemVideo (s : AppState) : bool :=
  match currentImage s with
  | Some f => startsWith "video/" (type f)
  | None => false
  end.

Definition canUndo (s : AppState) : bool :=
  bool_decide (historyIndex s > 0).

Definition canRedo (s : AppState) : bool :=
  bool_decide (historyIndex s < Z.of_nat (length (history s)) - 1).

Definition addImageToHistory (newImageFile : File) (s : AppState) : AppState :=
  let newHistory := slice0 (history s) (historyIndex s + 1) ++ [newImageFile] in
  s |> setHistory newHistory
    |> setHistoryIndex (Z.of_nat (length newHistory) - 1)
    |> setCrop None
    |> setCompletedCrop None.

Definition handleImageUpload (file : File) (s : AppState) : AppState :=
  s |> setError None
    |> setHistory [file]
    |> setHistoryIndex 0
    |> setEditHotspot None
    |> setDisplayHotspot None
    |> setActiveTab retouch
    |> setCrop None
    |> setCompletedCrop None.

Definition handleUndo (s : AppState) : AppState :=
  if canUndo s then
    s |> setHistoryIndex (historyIndex s - 1)
      |> setEditHotspot None
      |> setDisplayHotspot None
  else s.

Definition handleRedo (s : AppState) : AppState :=
  if canRedo s then
    s |> setHistoryIndex (historyIndex s + 1)
      |> setEditHotspot None
      |> setDisplayHotspot None
  else s.

Definition handleReset (s : AppState) : AppState :=
  if bool_decide (Z.of_nat (length (history s)) > 0) then
    s |> setHistoryIndex 0
      |> setError None
      |> setEditHotspot None
      |> setDisplayHotspot None
  else s.

Definition handleUploadNew (s : AppState) : AppState :=
  s |> setHistory []
    |> setHistoryIndex (-1)
    |> setError None
    |> setPrompt ""
    |> setEditHotspot None
    |> setDisplayHotspot None.

(** [handleFileSelect (files: FileList | null)]: [None] is [null]; a
    [FileList] is the list of its files. *)
Definition handleFileSelect (files : option (list File)) (s : AppState) : AppState :=
  match files with
  | Some (file :: _) => handleImageUpload file s
  | _ => s
  end.

(** ** Strings of the gateway: splitting, the MIME pattern, base64 *)

Definition dquote : string := String "034"%char EmptyString.

(** [`${v}`] for a possibly undefined string. *)
Definition jsStr (o : option string) : string := default "undefined" o.

(** [v || ''] *)
Definition orEmpty (o : option string) : string :=
  match o with
  | Some s => if truthyStr s then s else ""
  | None => ""
  end.

(** Truthiness of a possibly undefined string. *)
Definition truthyOpt (o : option string) : bool :=
  match o with
  | Some s => truthyStr s
  | None => false
  end.

(** [s.split(c)] for a one-character separator: never the empty array. *)
Fixpoint split (sep : ascii) (s : string) : list string :=
  match s with
  | EmptyString => [EmptyString]
  | String c r =>
      if decide (c = sep) then EmptyString :: split sep r
      else match split sep r with
           | h :: t => String c h :: t
           | [] => [String c EmptyString]
           end
  end.

(** Line terminators, which [.] does not match (LF and CR below 256). *)
Definition isLineTerminator (c : ascii) : bool :=
  bool_decide (c = "010"%char) || bool_decide (c = "013"%char).

(** [(.*?);] tried at one position: the shortest run of non-terminators
    followed by a semicolon. *)
Fixpoint lazyUntilSemicolon (s : string) : option string :=
  match s with
  | EmptyString => None
  | String c r =>
      if decide (c = ";"%char) then Some EmptyString
      else if isLineTerminator c then None
      else String c <$> lazyUntilSemicolon r
  end.

(** [s.match(/:(.*?);/)], giving capture group 1 of the leftmost match. *)
Fixpoint matchMime (s : string) : option string :=
  match s with
  | EmptyString => None
  | String c r =>
      if decide (c = ":"%char) then
        match lazyUntilSemicolon r with
        | Some g => Some g
        | None => matchMime r
        end
      else matchMime r
  end.

(** *** [atob]: the forgiving base64 decoder of the HTML standard *)

Definition isAsciiWhitespace (c : ascii) : bool :=
  match c with
  | "009" | "010" | "012" | "013" | " " => true
  | _ => false
  end%char.

Fixpoint stripWhitespace (s : string) : string :=
  match s with
  | EmptyString => EmptyString
  | String c r =>
      if isAsciiWhitespace c then stripWhitespace r else String c (stripWhitespace r)
  end.

(** The value of a character in the base64 alphabet. *)
Definition sextet (c : ascii) : option Z :=
  let n := Z.of_N (N_of_ascii c) in
  if bool_decide (65 ≤ n ≤ 90) then Some (n - 65)
  else if bool_decide (97 ≤ n ≤ 122) then Some (n - 71)
  else if bool_decide (48 ≤ n ≤ 57) then Some (n + 4)
  else if bool_decide (n = 43) then Some 62
  else if bool_decide (n = 47) then Some 63
  else None.

Fixpoint sextets (s : string) : option (list Z) :=
  match s with
  | EmptyString => Some []
  | String c r =>
      match sextet c, sextets r with
      | Some v, Some vs => Some (v :: vs)
      | _, _ => None
      end
  end.

(** Drops one or two trailing [=] signs. *)
Definition dropPadding (s : string) : string :=
  match String.rev s with
  | String "=" (String "=" r) => String.rev r
  | String "=" r => String.rev r
  | _ => s
  end.

Fixpoint decodeSextets (l : list Z) : list Z :=
  match l with
  | a :: b :: c :: d :: r =>
      let w := Z.lor (Z.lor (Z.shiftl a 18) (Z.shiftl b 12)) (Z.lor (Z.shiftl c 6) d) in
      Z.land (Z.shiftr w 16) 255 :: Z.land (Z.shiftr w 8) 255 :: Z.land w 255
        :: decodeSextets r
  | [a; b; c] =>
      let w := Z.lor (Z.lor (Z.shiftl a 18) (Z.shiftl b 12)) (Z.shiftl c 6) in
      [Z.land (Z.shiftr w 16) 255; Z.land (Z.shiftr w 8) 255]
  | [a; b] =>
      let w := Z.lor (Z.shiftl a 18) (Z.shiftl b 12) in
      [Z.land (Z.shiftr w 16) 255]
  | _ => []
  end.

Fixpoint binaryString (l : list Z) : string :=
  match l with
  | [] => EmptyString
  | b :: r => String (ascii_of_N (Z.to_N b)) (binaryString r)
  end.

(** The forgiving base64 decoding of a string, one code unit per decoded
    byte; [None] when the string is not correctly encoded. *)
Definition base64Decode (data : string) : option string :=
  let s := stripWhitespace data in
  let s := if bool_decide (Z.of_nat (String.length s) mod 4 = 0) then dropPadding s else s in
  if bool_decide (Z.of_nat (String.length s) mod 4 = 1) then None
  else binaryString <$> (decodeSextets <$> sextets s).

(** [s.charCodeAt(i)] as stored in a [Uint8Array] slot: the code unit
    modulo 256, and 0 for the [NaN] of an index out of range. *)
Definition charCodeAt (s : string) (i : nat) : Z :=
  match String.get i s with
  | Some c => Z.of_N (N_of_ascii c) `mod` 256
  | None => 0
  end.

(** The loop [while (n--) { u8arr[n] = bstr.charCodeAt(n); }]: [n] is
    tested, decremented, and the body runs with the decremented value. *)
Fixpoint fillU8 (bstr : string) (n : nat) (u8arr : list Z) : list Z :=
  match n with
  | O => u8arr
  | S n' => fillU8 bstr n' (<[n' := charCodeAt bstr n']> u8arr)
  end.

(** ** The hosted service as the gateway sees it

    The response types of the client library, reduced to the fields that
    [geminiService.ts] reads; an optional field is an [option]. *)
Module GenAI.

Record Blob : Type := mkBlob {
  mimeType : option string;
  data : option string
}.

Record Part : Type := mkPart {
  inlineData : option Blob;
  partText : option string
}.

Record Content : Type := mkContent { parts : option (list Part) }.

Record Candidate : Type := mkCandidate {
  content : option Content;
  finishReason : option string
}.

Record PromptFeedback : Type := mkPromptFeedback {
  blockReason : option string;
  blockReasonMessage : option string
}.

(** [text] is the accessor [response.text] of the library. *)
Record GenerateContentResponse : Type := mkResponse {
  promptFeedback : option PromptFeedback;
  candidates : option (list Candidate);
  text : option string
}.

Record Video : Type := mkVideo { uri : option string }.
Record GeneratedVideo : Type := mkGeneratedVideo { video : option Video }.
Record GenerateVideosResponse : Type := mkVideosResponse {
  generatedVideos : option (list GeneratedVideo)
}.
Record OperationError : Type := mkOperationError { message : option string }.

(** A long-running video operation; an absent [done] is [false]. *)
Record Operation : Type := mkOperation {
  done : bool;
  error : option OperationError;
  response : option GenerateVideosResponse
}.

End GenAI.

(** The inline image of a request, as [fileToPart] builds it. *)
Record InlineData : Type := mkInlineData { mimeType : string; data : string }.

(** What a request asks for.  The prompt templates of the service functions
    are fixed texts around these arguments; the service is opaque, so a
    request is identified by its kind and arguments. *)
Inductive Instruction : Type :=
  | EditInstruction (userPrompt : string) (hotspot : Hotspot)
  | FilterInstruction (filterPrompt : string)
  | AdjustmentInstruction (adjustmentPrompt : string)
  | ThreeDViewInstruction
  | RemoveBackgroundInstruction
  | RestoreInstruction
  | GroupRestoreInstruction.

(** The result of [fetch]. *)
Record FetchResponse : Type := mkFetchResponse {
  ok : bool;
  statusText : string;
  blob : Outcome (list Z)
}.

(** The browser and the network: what each awaited call resolves to.
    [getVideosOperation] receives the number of status queries made before.
    For the crop, [imgRefCurrent] tells whether [imgRef.current] is set,
    [canvasContext] whether [getContext('2d')] gave a context, and
    [canvasToDataURL] is the PNG data URL of the canvas drawn for a crop.
    [invalidCharacterMessage] is the message of the exception that [atob]
    throws in this engine. *)
Record Env : Type := mkEnv {
  API_KEY : string;
  dateNow : Z;
  invalidCharacterMessage : string;
  imgRefCurrent : bool;
  canvasContext : bool;
  canvasToDataURL : CropRect → string;
  readAsDataURL : File → Outcome string;
  generateContent : Instruction → InlineData → Outcome GenAI.GenerateContentResponse;
  generateVideos : string → InlineData → Outcome GenAI.Operation;
  getVideosOperation : Z → GenAI.Operation → Outcome GenAI.Operation;
  fetch : string → Outcome FetchResponse
}.

(** ** Decoding in the browser

    [atob] returns the decoded string, or throws a [DOMException] (an
    [Error]) whose message is the engine's. *)
Definition atob (env : Env) (data : string) : Outcome string :=
  match base64Decode data with
  | Some bstr => Return bstr
  | None => Throw (ErrorObj (invalidCharacterMessage env))
  end.

(** [dataURLtoFile] of [src/App.tsx]. *)
Definition dataURLtoFile (env : Env) (dataurl filename : string) : Outcome File :=
  match split ","%char dataurl with
  | arr0 :: arr1 :: _ =>
      match matchMime arr0 with
      | Some mime =>
          if truthyStr mime then
            let! bstr := atob env arr1 in
            let n := String.length bstr in
            let u8arr := fillU8 bstr n (replicate n 0) in
            Return (newFile u8arr filename mime)
          else Throw (ErrorObj "Could not parse MIME type from data URL")
      | None => Throw (ErrorObj "Could not parse MIME type from data URL")
      end
  | _ => Throw (ErrorObj "Invalid data URL")
  end.

(** ** The gateway ([src/services/geminiService.ts]) *)

Definition fileToPart (env : Env) (file : File) : Outcome InlineData :=
  let! dataUrl := readAsDataURL env file in
  match split ","%char dataUrl with
  | arr0 :: arr1 :: _ =>
      match matchMime arr0 with
      | Some m =>
          if truthyStr m then Return {| mimeType := m; data := arr1 |}
          else Throw (ErrorObj "Could not parse MIME type from data URL")
      | None => Throw (ErrorObj "Could not parse MIME type from data URL")
      end
  | _ => Throw (ErrorObj "Invalid data URL")
  end.

(** [parts?.find(part => part.inlineData)] *)
Definition hasInlineData (p : GenAI.Part) : bool :=
  match GenAI.inlineData p with
  | Some _ => true
  | None => false
  end.

Definition handleApiResponse
    (response : GenAI.GenerateContentResponse) (context : string) : Outcome string :=
  (* 1. Check for prompt blocking first *)
  if truthyOpt (GenAI.promptFeedback response ?> GenAI.blockReason) then
    let blockReason := GenAI.promptFeedback response ?> GenAI.blockReason in
    let blockReasonMessage := GenAI.promptFeedback response ?> GenAI.blockReasonMessage in
    Throw (ErrorObj ("Request was blocked. Reason: " +:+ jsStr blockReason +:+ ". "
                       +:+ orEmpty blockReasonMessage))
  else
    (* 2. Try to find the image part *)
    let candidate0 : option GenAI.Candidate := GenAI.candidates response ?> head in
    let imagePartFromResponse : option GenAI.Part :=
      candidate0 ?> GenAI.content ?> GenAI.parts ?> List.find hasInlineData in
    match imagePartFromResponse ?> GenAI.inlineData with
    | Some inline =>
        Return ("data:" +:+ jsStr (GenAI.mimeType inline) +:+ ";base64,"
                  +:+ jsStr (GenAI.data inline))
    | None =>
        (* 3. If no image, check for other reasons *)
        let finishReason : option string := candidate0 ?> GenAI.finishReason in
        if truthyOpt finishReason && negb (bool_decide (finishReason = Some "STOP")) then
          Throw (ErrorObj ("Image generation for " +:+ context
                   +:+ " stopped unexpectedly. Reason: " +:+ jsStr finishReason
                   +:+ ". This often relates to safety settings."))
        else
          let textFeedback := trim <$> GenAI.text response in
          Throw (ErrorObj ("The AI model did not return an image for the " +:+ context +:+ ". "
                   +:+ (if truthyOpt textFeedback
                        then "The model responded with text: " +:+ dquote
                               +:+ jsStr textFeedback +:+ dquote
                        else "This can happen due to safety filters or if the request is too complex. Please try rephrasing your prompt to be more direct.")))
    end.

(** The seven synchronous operations: one request, one classified response. *)
Definition generateEditedImage (env : Env) (originalImage : File)
    (userPrompt : string) (hotspot : Hotspot) : Outcome string :=
  let! originalImagePart := fileToPart env originalImage in
  let! response := generateContent env (EditInstruction userPrompt hotspot) originalImagePart in
  handleApiResponse response "edit".

Definition generateFilteredImage (env : Env) (originalImage : File)
    (filterPrompt : string) : Outcome string :=
  let! originalImagePart := fileToPart env originalImage in
  let! response := generateContent env (FilterInstruction filterPrompt) originalImagePart in
  handleApiResponse response "filter".

Definition generateAdjustedImage (env : Env) (originalImage : File)
    (adjustmentPrompt : string) : Outcome string :=
  let! originalImagePart := fileToPart env originalImage in
  let! response := generateContent env (AdjustmentInstruction adjustmentPrompt) originalImagePart in
  handleApiResponse response "adjustment".

Definition generate3DView (env : Env) (originalImage : File) : Outcome string :=
  let! originalImagePart := fileToPart env originalImage in
  let! response := generateContent env ThreeDViewInstruction originalImagePart in
  handleApiResponse response "3dview".

Definition removeBackground (env : Env) (originalImage : File) : Outcome string :=
  let! originalImagePart := fileToPart env originalImage in
  let! response := generateContent env RemoveBackgroundInstruction originalImagePart in
  handleApiResponse response "background removal".

Definition restorePhoto (env : Env) (originalImage : File) : Outcome string :=
  let! originalImagePart := fileToPart env originalImage in
  let! response := generateContent env RestoreInstruction originalImagePart in
  handleApiResponse response "photo restoration".

Definition groupRestorePhoto (env : Env) (originalImage : File) : Outcome string :=
  let! originalImagePart := fileToPart env originalImage in
  let! response := generateContent env GroupRestoreInstruction originalImagePart in
  handleApiResponse response "group photo restoration".

(** *** The asynchronous operation: image to video

    What [generateVideoFromImage] does besides computing its result is
    recorded as a trace: the progress messages handed to [onProgress], the
    timer waits and the status queries. *)
Inductive Event : Type :=
  | EvProgress (message : string)
  | EvSleep (ms : Z)
  | EvStatusQuery (attempt : Z).

(** A task extends the trace and ends in a value or a thrown error; [None]
    means that the loop budget of the model ran out before it ended. *)
Definition Task (A : Type) : Type := list Event → option (list Event * Outcome A).

Definition retT {A} (a : A) : Task A := λ tr, Some (tr, Return a).

Definition bindT {A B} (m : Task A) (k : A → Task B) : Task B :=
  λ tr, match m tr with
        | Some (tr', Return a) => k a tr'
        | Some (tr', Throw e) => Some (tr', Throw e)
        | None => None
        end.

Definition emit (ev : Event) : Task unit := λ tr, Some (tr ++ [ev], Return ()).

Definition await {A} (o : Outcome A) : Task A := λ tr, Some (tr, o).

Definition throwT {A} (message : string) : Task A := await (Throw (ErrorObj message)).

Definition outOfFuel {A} : Task A := λ _, None.

Notation "'do!' v ':=' m 'in' k" := (bindT m (λ v, k))
  (at level 10, v name, m at level 100, k at level 200, only parsing).
Notation "m ';;!' k" := (bindT m (λ _, k))
  (at level 100, k at level 200, right associativity, only parsing).

Definition pollInterval : Z := 10000.
Definition maxAttempts : Z := 30.

Definition checkingProgress (attempts : Z) : string :=
  "Checking progress (" +:+ showZ ((attempts + 1) * 10) +:+ "s elapsed)...".

(** [while (!operation.done && attempts < maxAttempts) { ... }] *)
Fixpoint pollLoop (env : Env) (fuel : nat) (operation : GenAI.Operation)
    (attempts : Z) : Task (GenAI.Operation * Z) :=
  if negb (GenAI.done operation) && bool_decide (attempts < maxAttempts) then
    match fuel with
    | O => outOfFuel
    | S fuel' =>
        emit (EvSleep pollInterval) ;;!
        emit (EvProgress (checkingProgress attempts)) ;;!
        emit (EvStatusQuery attempts) ;;!
        do! operation' := await (getVideosOperation env attempts operation) in
        pollLoop env fuel' operation' (attempts + 1)
    end
  else retT (operation, attempts).

(** The part of [generateVideoFromImage] after the loop. *)
Definition collectVideo (env : Env) (operation : GenAI.Operation) : Task File :=
  if negb (GenAI.done operation) then
    throwT "Video generation timed out after 5 minutes."
  else
    match GenAI.error operation with
    | Some err => throwT ("Video generation failed: " +:+ jsStr (GenAI.message err))
    | None =>
        let downloadLink : option string :=
          GenAI.response operation ?> GenAI.generatedVideos ?> head
            ?> GenAI.video ?> GenAI.uri in
        if negb (truthyOpt downloadLink) then
          throwT "Video generation finished, but no download link was provided."
        else
          emit (EvProgress "Downloading generated video...") ;;!
          do! response := await (fetch env (jsStr downloadLink +:+ "&key=" +:+ API_KEY env)) in
          if negb (ok response) then
            throwT ("Failed to download video: " +:+ statusText response)
          else
            do! videoBlob := await (blob response) in
            emit (EvProgress "Video downloaded successfully!") ;;!
            retT (newFile videoBlob ("video-" +:+ showZ (dateNow env) +:+ ".mp4")
                    "video/mp4")
    end.

Definition generateVideoFromImage (env : Env) (fuel : nat)
    (originalImage : File) (userPrompt : string) : Task File :=
  emit (EvProgress "Initializing video generation...") ;;!
  do! inlineData := await (fileToPart env originalImage) in
  emit (EvProgress "Sending request to the video model...") ;;!
  do! operation := await (generateVideos env userPrompt inlineData) in
  emit (EvProgress "AI is creating your video. This may take a few minutes...") ;;!
  do! polled := pollLoop env fuel operation 0 in
  collectVideo env polled.1.

(** ** The operation handlers of [App] ([src/App.tsx])

    Each handler guards, marks the component busy, runs the gateway call
    and the conversion inside [try], reports a failure in [catch] and
    clears the busy flag in [finally].  Between the guard and the end of
    the handler only the handler itself updates the state, so the captured
    [history] and [historyIndex] that [addImageToHistory] reads are those
    of the state it updates. *)

Definition workingMessage : string := "AI is working its magic...".

Definition pngName (kind : string) (env : Env) : string :=
  kind +:+ "-" +:+ showZ (dateNow env) +:+ ".png".

Definition handleGenerate (env : Env) (s : AppState) : AppState :=
  match currentImage s with
  | None => s |> setError (Some "No image loaded to edit.")
  | Some img =>
    if isCurrentItemVideo s then s |> setError (Some "No image loaded to edit.")
    else if negb (truthyStr (trim (prompt s))) then
      s |> setError (Some "Please enter a description for your edit.")
    else match editHotspot s with
    | None => s |> setError (Some "Please click on the image to select an area to edit.")
    | Some hotspot =>
      let s1 := s |> setIsLoading true |> setLoadingMessage workingMessage
                  |> setError None in
      let attempt :=
        let! editedImageUrl := generateEditedImage env img (prompt s) hotspot in
        dataURLtoFile env editedImageUrl (pngName "edited" env) in
      match attempt with
      | Return newImageFile =>
          s1 |> addImageToHistory newImageFile
             |> setEditHotspot None
             |> setDisplayHotspot None
             |> setIsLoading false
      | Throw err =>
          s1 |> setError (Some ("Failed to generate the image. " +:+ errorMessageOf err))
             |> setIsLoading false
      end
    end
  end.

Definition handleApplyFilter (env : Env) (filterPrompt : string) (s : AppState) : AppState :=
  match currentImage s with
  | None => s |> setError (Some "No image loaded to apply a filter to.")
  | Some img =>
    if isCurrentItemVideo s then s |> setError (Some "No image loaded to apply a filter to.")
    else
      let s1 := s |> setIsLoading true |> setLoadingMessage workingMessage
                  |> setError None in
      let attempt :=
        let! filteredImageUrl := generateFilteredImage env img filterPrompt in
        dataURLtoFile env filteredImageUrl (pngName "filtered" env) in
      match attempt with
      | Return newImageFile =>
          s1 |> addImageToHistory newImageFile |> setIsLoading false
      | Throw err =>
          s1 |> setError (Some ("Failed to apply the filter. " +:+ errorMessageOf err))
             |> setIsLoading false
      end
  end.

Definition handleApplyAdjustment (env : Env) (adjustmentPrompt : string)
    (s : AppState) : AppState :=
  match currentImage s with
  | None => s |> setError (Some "No image loaded to apply an adjustment to.")
  | Some img =>
    if isCurrentItemVideo s then
      s |> setError (Some "No image loaded to apply an adjustment to.")
    else
      let s1 := s |> setIsLoading true |> setLoadingMessage workingMessage
                  |> setError None in
      let attempt :=
        let! adjustedImageUrl := generateAdjustedImage env img adjustmentPrompt in
        dataURLtoFile env adjustedImageUrl (pngName "adjusted" env) in
      match attempt with
      | Return newImageFile =>
          s1 |> addImageToHistory newImageFile |> setIsLoading false
      | Throw err =>
          s1 |> setError (Some ("Failed to apply the adjustment. " +:+ errorMessageOf err))
             |> setIsLoading false
      end
  end.

Definition handleGenerate3DView (env : Env) (s : AppState) : AppState :=
  match currentImage s with
  | None => s |> setError (Some "No image loaded to generate a 3D view from.")
  | Some img =>
    if isCurrentItemVideo s then
      s |> setError (Some "No image loaded to generate a 3D view from.")
    else
      let s1 := s |> setIsLoading true |> setLoadingMessage workingMessage
                  |> setError None in
      let attempt :=
        let! imageUrl := generate3DView env img in
        dataURLtoFile env imageUrl (pngName "3dview" env) in
      match attempt with
      | Return newImageFile =>
          s1 |> addImageToHistory newImageFile |> setIsLoading false
      | Throw err =>
          s1 |> setError (Some ("Failed to generate the 3D view. " +:+ errorMessageOf err))
             |> setIsLoading false
      end
  end.

Definition handleRemoveBackground (env : Env) (s : AppState) : AppState :=
  match currentImage s with
  | None => s |> setError (Some "No image loaded to remove background from.")
  | Some img =>
    if isCurrentItemVideo s then
      s |> setError (Some "No image loaded to remove background from.")
    else
      let s1 := s |> setIsLoading true
                  |> setLoadingMessage "AI is removing the background..."
                  |> setError None in
      let attempt :=
        let! resultUrl := removeBackground env img in
        dataURLtoFile env resultUrl (pngName "bg-removed" env) in
      match attempt with
      | Return newImageFile =>
          s1 |> addImageToHistory newImageFile
             |> setIsLoading false |> setLoadingMessage workingMessage
      | Throw err =>
          s1 |> setError (Some ("Failed to remove background. " +:+ errorMessageOf err))
             |> setIsLoading false |> setLoadingMessage workingMessage
      end
  end.

Definition handleRestorePhoto (env : Env) (s : AppState) : AppState :=
  match currentImage s with
  | None => s |> setError (Some "No image loaded to restore.")
  | Some img =>
    if isCurrentItemVideo s then s |> setError (Some "No image loaded to restore.")
    else
      let s1 := s |> setIsLoading true
                  |> setLoadingMessage "AI is restoring your photo..."
                  |> setError None in
      let attempt :=
        let! resultUrl := restorePhoto env img in
        dataURLtoFile env resultUrl (pngName "restored" env) in
      match attempt with
      | Return newImageFile =>
          s1 |> addImageToHistory newImageFile
             |> setIsLoading false |> setLoadingMessage workingMessage
      | Throw err =>
          s1 |> setError (Some ("Failed to restore photo. " +:+ errorMessageOf err))
             |> setIsLoading false |> setLoadingMessage workingMessage
      end
  end.

Definition handleGroupRestorePhoto (env : Env) (s : AppState) : AppState :=
  match currentImage s with
  | None => s |> setError (Some "No image loaded to restore.")
  | Some img =>
    if isCurrentItemVideo s then s |> setError (Some "No image loaded to restore.")
    else
      let s1 := s |> setIsLoading true
                  |> setLoadingMessage "AI is restoring your group photo..."
                  |> setError None in
      let attempt :=
        let! resultUrl := groupRestorePhoto env img in
        dataURLtoFile env resultUrl (pngName "restored-group" env) in
      match attempt with
      | Return newImageFile =>
          s1 |> addImageToHistory newImageFile
             |> setIsLoading false |> setLoadingMessage workingMessage
      | Throw err =>
          s1 |> setError (Some ("Failed to restore group photo. " +:+ errorMessageOf err))
             |> setIsLoading false |> setLoadingMessage workingMessage
      end
  end.

(** [handleApplyCrop] has no [try]: an error thrown by [dataURLtoFile]
    leaves the handler.  The drawing on the canvas is the browser's. *)
Definition handleApplyCrop (env : Env) (s : AppState) : Outcome AppState :=
  match completedCrop s with
  | None => Return (s |> setError (Some "Please select an area to crop."))
  | Some completed =>
    if negb (imgRefCurrent env) then
      Return (s |> setError (Some "Please select an area to crop."))
    else if negb (canvasContext env) then
      Return (s |> setError (Some "Could not process the crop."))
    else
      let croppedImageUrl := canvasToDataURL env completed in
      let! newImageFile := dataURLtoFile env croppedImageUrl (pngName "cropped" env) in
      Return (s |> addImageToHistory newImageFile)
  end.

(** [onProgress]: every progress message of the trace becomes the loading
    message, in order. *)
Definition onProgress (ev : Event) (s : AppState) : AppState :=
  match ev with
  | EvProgress message => s |> setLoadingMessage message
  | _ => s
  end.

Definition reportProgress (trace : list Event) (s : AppState) : AppState :=
  foldl (λ acc ev, onProgress ev acc) s trace.

(** [handleGenerateVideo]; [None] only if the loop budget [fuel] of the
    model is too small for the polling loop. *)
Definition handleGenerateVideo (env : Env) (fuel : nat) (prompt : string)
    (s : AppState) : option AppState :=
  match currentImage s with
  | None => Some (s |> setError (Some "No image loaded to animate."))
  | Some img =>
    if isCurrentItemVideo s then Some (s |> setError (Some "No image loaded to animate."))
    else if negb (truthyStr (trim prompt)) then
      Some (s |> setError (Some "Please enter a description for the animation."))
    else
      let s1 := s |> setIsLoading true |> setError None in
      match generateVideoFromImage env fuel img prompt [] with
      | None => None
      | Some (trace, Return videoFile) =>
          Some (s1 |> reportProgress trace
                   |> addImageToHistory videoFile
                   |> setAnimatePrompt ""
                   |> setIsLoading false |> setLoadingMessage workingMessage)
      | Some (trace, Throw err) =>
          Some (s1 |> reportProgress trace
                   |> setError (Some ("Failed to generate the video. " +:+ errorMessageOf err))
                   |> setIsLoading false |> setLoadingMessage workingMessage)
      end
  end.

(** ** Operation requests

    The eight operation kinds of the specification and the handler that
    serves each.  An edit takes its instruction and hotspot from the state;
    a filter, an adjustment and an animation receive their instruction. *)
Inductive OperationRequest : Type :=
  | Edit
  | Filter (filterPrompt : string)
  | Adjustment (adjustmentPrompt : string)
  | ThreeDView
  | BackgroundRemoval
  | Restore
  | GroupRestore
  | Animate (prompt : string).

Definition perform (env : Env) (fuel : nat) (req : OperationRequest)
    (s : AppState) : option AppState :=
  match req with
  | Edit => Some (handleGenerate env s)
  | Filter p => Some (handleApplyFilter env p s)
  | Adjustment p => Some (handleApplyAdjustment env p s)
  | ThreeDView => Some (handleGenerate3DView env s)
  | BackgroundRemoval => Some (handleRemoveBackground env s)
  | Restore => Some (handleRestorePhoto env s)
  | GroupRestore => Some (handleGroupRestorePhoto env s)
  | Animate p => handleGenerateVideo env fuel p s
  end.

(** The gateway call that the handler of a request makes on image [img]:
    its trace and its outcome. *)
Definition gatewayCall (env : Env) (fuel : nat) (req : OperationRequest)
    (s : AppState) (img : File) : option (list Event * Outcome (string + File)) :=
  match req with
  | Edit =>
      match editHotspot s with
      | Some hotspot => Some ([], bindO (generateEditedImage env img (prompt s) hotspot)
                                        (λ u, Return (inl u)))
      | None => None
      end
  | Filter p => Some ([], bindO (generateFilteredImage env img p) (λ u, Return (inl u)))
  | Adjustment p => Some ([], bindO (generateAdjustedImage env img p) (λ u, Return (inl u)))
  | ThreeDView => Some ([], bindO (generate3DView env img) (λ u, Return (inl u)))
  | BackgroundRemoval => Some ([], bindO (removeBackground env img) (λ u, Return (inl u)))
  | Restore => Some ([], bindO (restorePhoto env img) (λ u, Return (inl u)))
  | GroupRestore => Some ([], bindO (groupRestorePhoto env img) (λ u, Return (inl u)))
  | Animate p =>
      match generateVideoFromImage env fuel img p [] with
      | Some (trace, o) => Some (trace, bindO o (λ f, Return (inr f)))
      | None => None
      end
  end.

(** The guards of the handler of a request pass in state [s]. *)
Definition dispatched (req : OperationRequest) (s : AppState) : bool :=
  match currentImage s with
  | None => false
  | Some _ =>
      negb (isCurrentItemVideo s) &&
      match req with
      | Edit => truthyStr (trim (prompt s)) &&
                match editHotspot s with Some _ => true | None => false end
      | Animate p => truthyStr (trim p)
      | _ => true
      end
  end.

(** The text that [catch] puts before the message of the failure. *)
Definition failurePrefix (req : OperationRequest) : string :=
  match req with
  | Edit => "Failed to generate the image. "
  | Filter _ => "Failed to apply the filter. "
  | Adjustment _ => "Failed to apply the adjustment. "
  | ThreeDView => "Failed to generate the 3D view. "
  | BackgroundRemoval => "Failed to remove background. "
  | Restore => "Failed to restore photo. "
  | GroupRestore => "Failed to restore group photo. "
  | Animate _ => "Failed to generate the video. "
  end.

(** ** Sequences of history operations *)

Inductive HistoryOp : Type :=
  | OpAppend (artifact : File)
  | OpUndo
  | OpRedo.

Definition applyOp (s : AppState) (op : HistoryOp) : AppState :=
  match op with
  | OpAppend artifact => addImageToHistory artifact s
  | OpUndo => handleUndo s
  | OpRedo => handleRedo s
  end.

Definition applyOps (ops : list HistoryOp) (s : AppState) : AppState :=
  foldl applyOp s ops.

(** A history that holds [original] at position 0 and whose cursor points
    at one of its entries. *)
Definition rooted (original : File) (s : AppState) : Prop :=
  0 ≤ historyIndex s < Z.of_nat (length (history s)) ∧
  history s !! 0%nat = Some original.

(** ** What a response carries

    The four things the classification of a response looks at, in the
    words of the specification. *)

(** The block reason, when one is present (a non-empty string). *)
Definition blockReasonOf (response : GenAI.GenerateContentResponse) : option string :=
  match GenAI.promptFeedback response ?> GenAI.blockReason with
  | Some reason => if truthyStr reason then Some reason else None
  | None => None
  end.

(** The inline payload of the response: that of the first part of the
    first candidate that has one. *)
Definition inlinePayloadOf (response : GenAI.GenerateContentResponse) : option GenAI.Blob :=
  match GenAI.candidates response with
  | Some (candidate :: _) =>
      match GenAI.content candidate with
      | Some c =>
          match GenAI.parts c with
          | Some ps => List.find hasInlineData ps ?> GenAI.inlineData
          | None => None
          end
      | None => None
      end
  | _ => None
  end.

(** The completion reason of the first candidate, when present and not
    the normal ["STOP"]. *)
Definition abnormalFinishOf (response : GenAI.GenerateContentResponse) : option string :=
  match GenAI.candidates response with
  | Some (candidate :: _) =>
      match GenAI.finishReason candidate with
      | Some reason =>
          if truthyStr reason && negb (bool_decide (reason = "STOP"))
          then Some reason else None
      | None => None
      end
  | _ => None
  end.

(** The text of the response with surrounding white space removed, when
    something is left. *)
Definition feedbackTextOf (response : GenAI.GenerateContentResponse) : option string :=
  match GenAI.text response with
  | Some t => if truthyStr (trim t) then Some (trim t) else None
  | None => None
  end.

(** [needle] occurs in [message]. *)
Definition carries (needle message : string) : Prop :=
  ∃ before after, message = before +:+ needle +:+ after.

Definition noImageAdvice : string :=
  "This can happen due to safety filters or if the request is too complex. Please try rephrasing your prompt to be more direct.".

(** ** Runs of the polling loop

    One round of the loop at attempt counter [attempts]: the wait, the
    progress message, then the status query. *)
Definition pollRound (attempts : Z) : list Event :=
  [EvSleep pollInterval; EvProgress (checkingProgress attempts); EvStatusQuery attempts].

(** [rounds] consecutive rounds, the first at counter [attempts]. *)
Fixpoint pollRounds (attempts : Z) (rounds : nat) : list Event :=
  match rounds with
  | O => []
  | S n => pollRound attempts ++ pollRounds (attempts + 1) n
  end.

(** A run of the loop from operation [operation] and counter [attempts]:
    the events it adds and how it ends.  It stops without a round when
    the operation is done or the counter has reached [maxAttempts]; else
    it makes one round and goes on with the answer of the status query,
    or ends with what the query threw. *)
Inductive Polls (env : Env) :
    GenAI.Operation → Z → list Event → Outcome (GenAI.Operation * Z) → Prop :=
  | Polls_stop operation attempts :
      GenAI.done operation = true ∨ maxAttempts ≤ attempts →
      Polls env operation attempts [] (Return (operation, attempts))
  | Polls_round operation attempts operation' trace r :
      GenAI.done operation = false → attempts < maxAttempts →
      getVideosOperation env attempts operation = Return operation' →
      Polls env operation' (attempts + 1) trace r →
      Polls env operation attempts (pollRound attempts ++ trace) r
  | Polls_throw operation attempts e :
      GenAI.done operation = false → attempts < maxAttempts →
      getVideosOperation env attempts operation = Throw e →
      Polls env operation attempts (pollRound attempts) (Throw e).

(** The milliseconds spent waiting in a trace. *)
Fixpoint timeSlept (trace : list Event) : Z :=
  match trace with
  | [] => 0
  | EvSleep ms :: rest => ms + timeSlept rest
  | _ :: rest => timeSlept rest
  end.

(** The number of status queries in a trace. *)
Fixpoint statusQueries (trace : list Event) : Z :=
  match trace with
  | [] => 0
  | EvStatusQuery _ :: rest => 1 + statusQueries rest
  | _ :: rest => statusQueries rest
  end.

Definition timeoutMessage : string := "Video generation timed out after 5 minutes.".

(** The progress that [generateVideoFromImage] reports before it polls. *)
Definition videoPreamble : list Event :=
  [EvProgress "Initializing video generation...";
   EvProgress "Sending request to the video model...";
   EvProgress "AI is creating your video. This may take a few minutes..."].

(** ** Inline payloads and the files made of them *)

(** [s.includes(c)] for a character [c]. *)
Fixpoint occursIn (c : ascii) (s : string) : bool :=
  match s with
  | EmptyString => false
  | String a r => bool_decide (a = c) || occursIn c r
  end.

(** A MIME type without parameters: not empty, and free of commas,
    semicolons and line terminators. *)
Definition plainMime (mime : string) : bool :=
  truthyStr mime && negb (occursIn ","%char mime) && negb (occursIn ";"%char mime)
    && negb (occursIn "010"%char mime) && negb (occursIn "013"%char mime).

(** The data URL that [handleApiResponse] builds from a payload. *)
Definition dataUrlOf (mime data : string) : string :=
  "data:" +:+ mime +:+ ";base64," +:+ data.

(** The code units of a string. *)
Fixpoint charCodes (s : string) : list Z :=
  match s with
  | EmptyString => []
  | String c r => Z.of_N (N_of_ascii c) :: charCodes r
  end.

(** The name that the handler of a request gives to its result. *)
Definition resultName (req : OperationRequest) (env : Env) : string :=
  match req with
  | Edit => pngName "edited" env
  | Filter _ => pngName "filtered" env
  | Adjustment _ => pngName "adjusted" env
  | ThreeDView => pngName "3dview" env
  | BackgroundRemoval => pngName "bg-removed" env
  | Restore => pngName "restored" env
  | GroupRestore => pngName "restored-group" env
  | Animate _ => "video-" +:+ showZ (dateNow env) +:+ ".mp4"
  end.

(** ** Sample data

    A small session used to run the definitions: one uploaded photo, a
    service that answers every request with a two-byte PNG-typed payload,
    and a video operation that never completes. *)

Definition photo : File :=
  {| name := "photo.png"; type := "image/png"; bytes := [137; 80; 78; 71] |}.

Definition emptyFile : File := {| name := "empty.png"; type := "image/png"; bytes := [] |}.

Definition uploaded : AppState := handleImageUpload photo initialState.

Definition marked : AppState :=
  uploaded |> setEditHotspot (Some (mkHotspot 10 20))
           |> setDisplayHotspot (Some (mkHotspot 5 10)).

Definition cropping : AppState :=
  marked |> setCompletedCrop (Some (mkCrop 0 0 16 16)).

Definition imageResponse (mime data : string) : GenAI.GenerateContentResponse :=
  {| GenAI.promptFeedback := None;
     GenAI.candidates := Some [
       {| GenAI.content := Some {| GenAI.parts := Some [
            {| GenAI.inlineData := Some {| GenAI.mimeType := Some mime;
                                           GenAI.data := Some data |};
               GenAI.partText := None |} ] |};
          GenAI.finishReason := Some "STOP" |} ];
     GenAI.text := None |}.

Definition blockedResponse : GenAI.GenerateContentResponse :=
  {| GenAI.promptFeedback :=
       Some {| GenAI.blockReason := Some "SAFETY";
               GenAI.blockReasonMessage := Some "Unsafe prompt." |};
     GenAI.candidates := None;
     GenAI.text := None |}.

Definition stoppedResponse : GenAI.GenerateContentResponse :=
  {| GenAI.promptFeedback := None;
     GenAI.candidates := Some [
       {| GenAI.content := None; GenAI.finishReason := Some "IMAGE_SAFETY" |} ];
     GenAI.text := None |}.

Definition textResponse (t : option string) : GenAI.GenerateContentResponse :=
  {| GenAI.promptFeedback := None;
     GenAI.candidates := Some [
       {| GenAI.content := Some {| GenAI.parts := Some [
            {| GenAI.inlineData := None; GenAI.partText := t |} ] |};
          GenAI.finishReason := Some "STOP" |} ];
     GenAI.text := t |}.

Definition pendingOperation : GenAI.Operation :=
  {| GenAI.done := false; GenAI.error := None; GenAI.response := None |}.

Definition serviceWith (answer : Outcome GenAI.GenerateContentResponse) : Env :=
  {| API_KEY := "key";
     dateNow := 1700000000000;
     invalidCharacterMessage := "Invalid character";
     imgRefCurrent := true;
     canvasContext := true;
     canvasToDataURL := λ _, "data:image/png;base64,Y3JvcA==";
     readAsDataURL := λ _, Return "data:image/png;base64,iVBORw==";
     generateContent := λ _ _, answer;
     generateVideos := λ _ _, Return pendingOperation;
     getVideosOperation := λ _ operation, Return operation;
     fetch := λ _, Throw (ErrorObj "Failed to fetch") |}.

Definition sampleEnv : Env := serviceWith (Return (imageResponse "image/png" "aGk=")).

(** The download link of a finished video operation: the [uri] of its
    first generated video, when there is one and it is not empty. *)
Definition downloadLinkOf (operation : GenAI.Operation) : option string :=
  match GenAI.response operation ?> GenAI.generatedVideos ?> head
          ?> GenAI.video ?> GenAI.uri with
  | Some link => if truthyStr link then Some link else None
  | None => None
  end.

(** The file that [generateVideoFromImage] makes of downloaded bytes. *)
Definition videoFile (env : Env) (videoBlob : list Z) : File :=
  {| name := "video-" +:+ showZ (dateNow env) +:+ ".mp4";
     type := "video/mp4"; bytes := videoBlob |}.

(** ** Sessions

    What the user can do once a file is loaded: start one of the eight
    operations, apply the crop, or press undo, redo or reset.  An error
    that leaves [handleApplyCrop] happens before any setter ran, so the
    state stays as it was. *)
Inductive Action : Type :=
  | DoOperation (env : Env) (fuel : nat) (req : OperationRequest)
  | DoCrop (env : Env)
  | DoUndo
  | DoRedo
  | DoReset.

Definition act (s : AppState) (a : Action) : option AppState :=
  match a with
  | DoOperation env fuel req => perform env fuel req s
  | DoCrop env =>
      match handleApplyCrop env s with
      | Return s' => Some s'
      | Throw _ => Some s
      end
  | DoUndo => Some (handleUndo s)
  | DoRedo => Some (handleRedo s)
  | DoReset => Some (handleReset s)
  end.

Fixpoint session (actions : list Action) (s : AppState) : option AppState :=
  match actions with
  | [] => Some s
  | a :: rest =>
      match act s a with
      | Some s' => session rest s'
      | None => None
      end
  end.

(** The loop budget of an action suffices for the polling loop. *)
Definition fuelled (a : Action) : Prop :=
  match a with
  | DoOperation _ fuel _ => (30 ≤ fuel)%nat
  | _ => True
  end.

(** A string made of white space only (or empty). *)
Fixpoint blank (s : string) : bool :=
  match s with
  | EmptyString => true
  | String c r => isTrimSpace c && blank r
  end.

(** A thrown value that is an [Error] object. *)
Definition isErrorObj (e : Thrown) : Prop :=
  match e with
  | ErrorObj _ => True
  | NonError => False
  end.

(** More sample data: a video operation that completes at the third
    status query, with a download that succeeds. *)
Definition finishedOperation (link : string) : GenAI.Operation :=
  {| GenAI.done := true; GenAI.error := None;
     GenAI.response := Some {| GenAI.generatedVideos := Some [
       {| GenAI.video := Some {| GenAI.uri := Some link |} |} ] |} |}.

Definition videoEnv : Env :=
  {| API_KEY := "key";
     dateNow := 1700000000000;
     invalidCharacterMessage := "Invalid character";
     imgRefCurrent := true;
     canvasContext := true;
     canvasToDataURL := λ _, "data:image/png;base64,Y3JvcA==";
     readAsDataURL := λ _, Return "data:image/png;base64,iVBORw==";
     generateContent := λ _ _, Return (imageResponse "image/png" "aGk=");
     generateVideos := λ _ _, Return pendingOperation;
     getVideosOperation := λ n operation,
       if bool_decide (n < 2) then Return operation
       else Return (finishedOperation "https://video.example/v?alt=media");
     fetch := λ _, Return {| ok := true; statusText := "OK";
                             blob := Return [0; 0; 0; 24] |} |}.

(** * Properties *)

(** ** The history store *)

Section HistoryStore.

Implicit Types (s : AppState) (f : File).

Lemma slice0_take {A} (a : list A) (e : Z) :
  0 ≤ e → slice0 a e = take (Z.to_nat e) a.
Proof.
  intros He. unfold slice0. destruct (decide (e < 0)) as [|_]; [lia|].
  destruct (Z.min_spec e (Z.of_nat (length a))) as [[Hlt ->]|[Hge ->]]; [done|].
  rewrite Nat2Z.id, !take_ge; [done|lia|lia].
Qed.

Lemma addImageToHistory_history f s :
  0 ≤ historyIndex s →
  history (addImageToHistory f s)
    = take (Z.to_nat (historyIndex s + 1)) (history s) ++ [f].
Proof. intros H. cbn. by rewrite slice0_take by lia. Qed.

Lemma addImageToHistory_index f s :
  historyIndex (addImageToHistory f s)
    = Z.of_nat (length (history (addImageToHistory f s))) - 1.
Proof. reflexivity. Qed.

Lemma addImageToHistory_canRedo f s :
  canRedo (addImageToHistory f s) = false.
Proof.
  unfold canRedo. rewrite addImageToHistory_index.
  apply bool_decide_eq_false. lia.
Qed.

Lemma handleUndo_history s : history (handleUndo s) = history s.
Proof. unfold handleUndo. by destruct (canUndo s). Qed.

Lemma handleRedo_history s : history (handleRedo s) = history s.
Proof. unfold handleRedo. by destruct (canRedo s). Qed.

Lemma handleUndo_index_nonneg s :
  0 ≤ historyIndex s → 0 ≤ historyIndex (handleUndo s) ≤ historyIndex s.
Proof.
  intros H. unfold handleUndo, canUndo. case_bool_decide; cbn; lia.
Qed.

Lemma rooted_upload f s : rooted f (handleImageUpload f s).
Proof. split; cbn; [lia|done]. Qed.

Lemma rooted_append original f s :
  rooted original s → rooted original (addImageToHistory f s).
Proof.
  intros [Hidx H0]. split.
  - rewrite addImageToHistory_index, addImageToHistory_history by lia.
    rewrite length_app, length_take. cbn. lia.
  - rewrite addImageToHistory_history by lia.
    rewrite lookup_app_l by (rewrite length_take; lia).
    rewrite lookup_take_lt by lia. done.
Qed.

Lemma rooted_undo original s : rooted original s → rooted original (handleUndo s).
Proof.
  intros [Hidx H0]. unfold handleUndo, canUndo.
  case_bool_decide; [|done]. split; cbn; [lia|done].
Qed.

Lemma rooted_redo original s : rooted original s → rooted original (handleRedo s).
Proof.
  intros [Hidx H0]. unfold handleRedo, canRedo.
  case_bool_decide; [|done]. split; cbn; [lia|done].
Qed.

Lemma rooted_applyOps original ops s :
  rooted original s → rooted original (applyOps ops s).
Proof.
  revert s. induction ops as [|op ops IH]; intros s Hs; [done|].
  cbn. apply IH. destruct op; cbn;
    auto using rooted_append, rooted_undo, rooted_redo.
Qed.

Lemma rooted_originalImage original s :
  rooted original s → originalImage s = Some original.
Proof. intros [_ H0]. unfold originalImage, jsIndex. by case_decide; [lia|]. Qed.

Lemma rooted_currentImage original s :
  rooted original s → is_Some (currentImage s).
Proof.
  intros [Hidx _]. unfold currentImage, jsIndex. case_decide; [lia|].
  apply lookup_lt_is_Some. lia.
Qed.

(** C1. Whatever sequence of appends, undos and redos follows an upload,
    the cursor stays within [-1, length - 1] (indeed it always points at
    an entry) and entry 0 is still the uploaded original; a later upload
    starts a new history that holds the new file alone. *)
Theorem history_cursor_in_range_origin_kept
    (original : File) (s0 : AppState) (ops : list HistoryOp) :
  let s := applyOps ops (handleImageUpload original s0) in
  -1 ≤ historyIndex s ≤ Z.of_nat (length (history s)) - 1 ∧
  0 ≤ historyIndex s ∧
  history s !! 0%nat = Some original ∧
  originalImage s = Some original ∧
  ∀ f, history (handleImageUpload f s) = [f].
Proof.
  intros s.
  assert (Hs : rooted original s)
    by (apply rooted_applyOps, rooted_upload).
  pose proof (rooted_originalImage _ _ Hs) as Ho.
  destruct Hs as [Hidx H0]. repeat split; try done; lia.
Qed.

Lemma iter_undo_history (k : nat) s :
  history (Nat.iter k handleUndo s) = history s.
Proof. induction k as [|k IH]; [done|]. cbn. by rewrite handleUndo_history. Qed.

Lemma iter_undo_index (k : nat) s :
  0 ≤ historyIndex s →
  0 ≤ historyIndex (Nat.iter k handleUndo s) ≤ historyIndex s.
Proof.
  intros H. induction k as [|k IH]; [cbn; lia|].
  change (Nat.iter (S k) handleUndo s) with (handleUndo (Nat.iter k handleUndo s)).
  destruct IH as [IH1 IH2].
  pose proof (handleUndo_index_nonneg _ IH1). lia.
Qed.

(** C2. On a history with a non-negative cursor, an append keeps the
    first [head + 1] entries, pushes the artifact and moves the cursor to
    the new last index, so that redo is disabled and does nothing.  The
    same holds after any number of undos: every entry beyond the cursor
    reached by the undos is dropped. *)
Theorem append_truncates_and_disables_redo (s : AppState) (f : File) :
  0 ≤ historyIndex s →
  (let s' := addImageToHistory f s in
   history s' = take (Z.to_nat (historyIndex s + 1)) (history s) ++ [f] ∧
   historyIndex s' = Z.of_nat (length (history s')) - 1 ∧
   last (history s') = Some f ∧
   canRedo s' = false ∧
   handleRedo s' = s') ∧
  (∀ k : nat,
     let u := Nat.iter k handleUndo s in
     let s' := addImageToHistory f u in
     history s' = take (Z.to_nat (historyIndex u + 1)) (history s) ++ [f] ∧
     historyIndex s' = Z.of_nat (length (history s')) - 1 ∧
     canRedo s' = false ∧
     handleRedo s' = s').
Proof.
  intros H. split.
  - cbv zeta. split; [by apply addImageToHistory_history|].
    split; [apply addImageToHistory_index|].
    split; [rewrite addImageToHistory_history by done; apply last_snoc|].
    split; [apply addImageToHistory_canRedo|].
    unfold handleRedo. by rewrite addImageToHistory_canRedo.
  - intros k u s'. subst s'.
    pose proof (iter_undo_index k s H) as Hu. fold u in Hu.
    split.
    { rewrite addImageToHistory_history by lia.
      unfold u at 2. by rewrite iter_undo_history. }
    split; [apply addImageToHistory_index|].
    split; [apply addImageToHistory_canRedo|].
    unfold handleRedo. by rewrite addImageToHistory_canRedo.
Qed.

End HistoryStore.

Lemma append_truncates_and_disables_redo_witness :
  0 ≤ historyIndex uploaded ∧
  history (addImageToHistory emptyFile uploaded) = [photo; emptyFile] ∧
  canRedo (addImageToHistory emptyFile uploaded) = false.
Proof.
  assert (H : 0 ≤ historyIndex uploaded) by (cbn; lia).
  split; [exact H|].
  destruct (append_truncates_and_disables_redo uploaded emptyFile H)
    as ((Hh & _ & _ & Hr & _) & _).
  split; [exact Hh|exact Hr].
Defined.

(** ** Guards of the history store *)

(** C6, as the code has it. With the cursor at 0, undo returns the state it
    was given: entries, cursor, hotspots and the error field are all
    untouched, so nothing is reported.  Redo with the cursor on the last
    entry does the same. *)
Theorem undo_redo_at_bounds_are_silent (s : AppState) :
  (historyIndex s = 0 → handleUndo s = s) ∧
  (historyIndex s = Z.of_nat (length (history s)) - 1 → handleRedo s = s).
Proof.
  split; intros H.
  - unfold handleUndo, canUndo. case_bool_decide; [lia|done].
  - unfold handleRedo, canRedo. case_bool_decide; [lia|done].
Qed.

Lemma undo_redo_at_bounds_are_silent_witness :
  historyIndex uploaded = 0 ∧ handleUndo uploaded = uploaded ∧
  historyIndex uploaded = Z.of_nat (length (history uploaded)) - 1 ∧
  handleRedo uploaded = uploaded.
Proof.
  split; [reflexivity|].
  split; [apply (undo_redo_at_bounds_are_silent uploaded); reflexivity|].
  split; [reflexivity|].
  apply (undo_redo_at_bounds_are_silent uploaded); reflexivity.
Defined.

(** C6, against the claim. Undo on a fresh upload (cursor 0, no error
    pending) leaves the error field empty: no precondition failure is
    reported anywhere in the state. *)
Lemma undo_at_origin_reports_nothing :
  historyIndex uploaded = 0 ∧
  canUndo uploaded = false ∧ canRedo uploaded = false ∧
  error uploaded = None ∧
  handleUndo uploaded = uploaded ∧ error (handleUndo uploaded) = None ∧
  handleRedo uploaded = uploaded ∧ error (handleRedo uploaded) = None.
Proof. repeat split. Qed.

(** C8, as the code has it. Selecting a file replaces the history by that
    file alone, puts the cursor at 0 and clears both hotspots and the
    error; with no file ([null] or an empty list) nothing happens at all. *)
Theorem upload_replaces_history_or_is_skipped
    (file : File) (others : list File) (s : AppState) :
  (let s' := handleFileSelect (Some (file :: others)) s in
   s' = handleImageUpload file s ∧
   history s' = [file] ∧ historyIndex s' = 0 ∧ currentImage s' = Some file ∧
   editHotspot s' = None ∧ displayHotspot s' = None ∧ error s' = None) ∧
  handleFileSelect None s = s ∧
  handleFileSelect (Some []) s = s.
Proof. repeat split. Qed.

(** C8, against the claim. Selecting nothing reports no failure, and a
    file without any bytes is accepted like any other. *)
Lemma upload_of_nothing_reports_nothing :
  error (handleFileSelect None initialState) = None ∧
  error (handleFileSelect (Some []) initialState) = None ∧
  bytes emptyFile = [] ∧
  history (handleFileSelect (Some [emptyFile]) initialState) = [emptyFile] ∧
  error (handleFileSelect (Some [emptyFile]) initialState) = None.
Proof. repeat split. Qed.

(** C10. Reset on a non-empty history moves the cursor to 0, keeps the
    entries, and clears the edit hotspot, the display hotspot and the
    pending error. *)
Theorem reset_clears_hotspots_and_error (s : AppState) :
  history s ≠ [] →
  let s' := handleReset s in
  historyIndex s' = 0 ∧ history s' = history s ∧
  editHotspot s' = None ∧ displayHotspot s' = None ∧ error s' = None.
Proof.
  intros Hne. unfold handleReset.
  case_bool_decide as Hlen; [repeat split|].
  destruct (history s); [done|]. cbn in Hlen. lia.
Qed.

Lemma reset_clears_hotspots_and_error_witness :
  history (setError (Some "Failed.") marked) ≠ [] ∧
  editHotspot (handleReset (setError (Some "Failed.") marked)) = None ∧
  error (handleReset (setError (Some "Failed.") marked)) = None.
Proof.
  assert (Hne : history (setError (Some "Failed.") marked) ≠ []) by discriminate.
  split; [exact Hne|].
  pose proof (reset_clears_hotspots_and_error _ Hne) as (_ & _ & He & _ & Herr).
  split; [exact He|exact Herr].
Defined.

(** ** Failures of the gateway *)

Lemma reportProgress_frame (trace : list Event) (s : AppState) :
  history (reportProgress trace s) = history s ∧
  historyIndex (reportProgress trace s) = historyIndex s ∧
  error (reportProgress trace s) = error s ∧
  editHotspot (reportProgress trace s) = editHotspot s ∧
  displayHotspot (reportProgress trace s) = displayHotspot s.
Proof.
  revert s. induction trace as [|ev trace IH]; intros s; [done|].
  unfold reportProgress in *. cbn [foldl].
  destruct (IH (onProgress ev s)) as (-> & -> & -> & -> & ->). by destruct ev.
Qed.

Lemma bindO_inl_throw {A B} (o : Outcome A) (e : Thrown) :
  bindO o (λ u, Return (inl u : A + B)) = Throw e → o = Throw e.
Proof. destruct o; cbn; congruence. Qed.

Lemma bindO_inr_throw {A B} (o : Outcome B) (e : Thrown) :
  bindO o (λ u, Return (inr u : A + B)) = Throw e → o = Throw e.
Proof. destruct o; cbn; congruence. Qed.

(** The outcome of a synchronous gateway call that threw, read off the
    hypothesis on [gatewayCall]. *)
Ltac gateway_threw H :=
  cbn [gatewayCall] in H;
  repeat match type of H with
         | match ?o with _ => _ end = _ => destruct o eqn:?; try discriminate H
         end;
  injection H as <- H;
  first [apply bindO_inl_throw in H | apply bindO_inr_throw in H].

(** C3. Take any of the eight operation requests in a state that shows an
    image, and suppose the gateway call of its handler throws [e].  Then
    the handler returns normally, entries and cursor are those of before,
    and the error field holds a message: when the guards of the handler
    pass, it is the failure text of the operation followed by the message
    of [e]. *)
Theorem gateway_failure_leaves_history (env : Env) (fuel : nat)
    (req : OperationRequest) (s : AppState) (img : File)
    (trace : list Event) (e : Thrown) :
  currentImage s = Some img →
  gatewayCall env fuel req s img = Some (trace, Throw e) →
  ∃ s', perform env fuel req s = Some s' ∧
        history s' = history s ∧
        historyIndex s' = historyIndex s ∧
        is_Some (error s') ∧
        (dispatched req s = true →
         error s' = Some (failurePrefix req +:+ errorMessageOf e)).
Proof.
  intros Himg Hcall. unfold dispatched. rewrite Himg.
  destruct req; gateway_threw Hcall; cbn [perform].
  - unfold handleGenerate. rewrite Himg.
    destruct (isCurrentItemVideo s); [by eexists; repeat split; eauto|].
    destruct (truthyStr (trim (prompt s))); [|by eexists; repeat split; eauto].
    rewrite Heqo, Hcall. by eexists; repeat split; eauto.
  - unfold handleApplyFilter. rewrite Himg, Hcall.
    destruct (isCurrentItemVideo s); by eexists; repeat split; eauto.
  - unfold handleApplyAdjustment. rewrite Himg, Hcall.
    destruct (isCurrentItemVideo s); by eexists; repeat split; eauto.
  - unfold handleGenerate3DView. rewrite Himg, Hcall.
    destruct (isCurrentItemVideo s); by eexists; repeat split; eauto.
  - unfold handleRemoveBackground. rewrite Himg, Hcall.
    destruct (isCurrentItemVideo s); by eexists; repeat split; eauto.
  - unfold handleRestorePhoto. rewrite Himg, Hcall.
    destruct (isCurrentItemVideo s); by eexists; repeat split; eauto.
  - unfold handleGroupRestorePhoto. rewrite Himg, Hcall.
    destruct (isCurrentItemVideo s); by eexists; repeat split; eauto.
  - unfold handleGenerateVideo. rewrite Himg.
    destruct (isCurrentItemVideo s); [by eexists; repeat split; eauto|].
    destruct (truthyStr (trim prompt0)); [|by eexists; repeat split; eauto].
    rewrite Heqo. subst o.
    match goal with
    | |- context [reportProgress ?tr ?s1] =>
        pose proof (reportProgress_frame tr s1) as (Hh & Hi & _)
    end.
    eexists. split; [reflexivity|]. cbn in *. by repeat split; eauto.
Qed.

Lemma gateway_failure_leaves_history_witness :
  ∃ s', perform (serviceWith (Return blockedResponse)) 0 (Filter "vintage") uploaded = Some s' ∧
        history s' = [photo] ∧ historyIndex s' = 0 ∧
        error s' = Some "Failed to apply the filter. Request was blocked. Reason: SAFETY. Unsafe prompt.".
Proof.
  destruct (gateway_failure_leaves_history
              (serviceWith (Return blockedResponse)) 0 (Filter "vintage") uploaded photo []
              (ErrorObj "Request was blocked. Reason: SAFETY. Unsafe prompt.")
              eq_refl eq_refl) as (s' & Hs' & Hh & Hi & _ & He).
  exists s'. split; [exact Hs'|]. split; [exact Hh|]. split; [exact Hi|].
  exact (He eq_refl).
Defined.

(** The history changes in one way only: by the append of a file that the
    handler obtained after its gateway call returned. *)
Lemma perform_appends_only_on_success (env : Env) (fuel : nat)
    (req : OperationRequest) (s s' : AppState) :
  perform env fuel req s = Some s' →
  (history s' = history s ∧ historyIndex s' = historyIndex s) ∨
  (∃ img trace r f,
      currentImage s = Some img ∧
      gatewayCall env fuel req s img = Some (trace, Return r) ∧
      history s' = history (addImageToHistory f s) ∧
      historyIndex s' = historyIndex (addImageToHistory f s)).
Proof.
  destruct req; cbn [perform];
    unfold handleGenerate, handleApplyFilter, handleApplyAdjustment,
      handleGenerate3DView, handleRemoveBackground, handleRestorePhoto,
      handleGroupRestorePhoto, handleGenerateVideo;
    intros Hp;
    destruct (currentImage s) as [img|] eqn:Himg;
    try (injection Hp as <-; by left);
    destruct (isCurrentItemVideo s);
    try (injection Hp as <-; by left).
  - destruct (truthyStr (trim (prompt s))); [|injection Hp as <-; by left].
    destruct (editHotspot s) as [h|] eqn:Hh; [|injection Hp as <-; by left].
    cbn [negb] in Hp.
    destruct (generateEditedImage env img (prompt s) h) as [url|e] eqn:Hg;
      [|injection Hp as <-; by left].
    cbn [bindO] in Hp.
    destruct (dataURLtoFile env url _) as [f|e]; injection Hp as <-; [|by left].
    right. exists img, [], (inl url), f. cbn [gatewayCall].
    rewrite Hh, Hg. by repeat split.
  - destruct (generateFilteredImage env img filterPrompt) as [url|e] eqn:Hg;
      [|injection Hp as <-; by left].
    cbn [bindO] in Hp.
    destruct (dataURLtoFile env url _) as [f|e]; injection Hp as <-; [|by left].
    right. exists img, [], (inl url), f. cbn [gatewayCall]. rewrite Hg. by repeat split.
  - destruct (generateAdjustedImage env img adjustmentPrompt) as [url|e] eqn:Hg;
      [|injection Hp as <-; by left].
    cbn [bindO] in Hp.
    destruct (dataURLtoFile env url _) as [f|e]; injection Hp as <-; [|by left].
    right. exists img, [], (inl url), f. cbn [gatewayCall]. rewrite Hg. by repeat split.
  - destruct (generate3DView env img) as [url|e] eqn:Hg;
      [|injection Hp as <-; by left].
    cbn [bindO] in Hp.
    destruct (dataURLtoFile env url _) as [f|e]; injection Hp as <-; [|by left].
    right. exists img, [], (inl url), f. cbn [gatewayCall]. rewrite Hg. by repeat split.
  - destruct (removeBackground env img) as [url|e] eqn:Hg;
      [|injection Hp as <-; by left].
    cbn [bindO] in Hp.
    destruct (dataURLtoFile env url _) as [f|e]; injection Hp as <-; [|by left].
    right. exists img, [], (inl url), f. cbn [gatewayCall]. rewrite Hg. by repeat split.
  - destruct (restorePhoto env img) as [url|e] eqn:Hg;
      [|injection Hp as <-; by left].
    cbn [bindO] in Hp.
    destruct (dataURLtoFile env url _) as [f|e]; injection Hp as <-; [|by left].
    right. exists img, [], (inl url), f. cbn [gatewayCall]. rewrite Hg. by repeat split.
  - destruct (groupRestorePhoto env img) as [url|e] eqn:Hg;
      [|injection Hp as <-; by left].
    cbn [bindO] in Hp.
    destruct (dataURLtoFile env url _) as [f|e]; injection Hp as <-; [|by left].
    right. exists img, [], (inl url), f. cbn [gatewayCall]. rewrite Hg. by repeat split.
  - destruct (truthyStr (trim prompt0)); [|injection Hp as <-; by left].
    cbn [negb] in Hp.
    destruct (generateVideoFromImage env fuel img prompt0 []) as [[tr [f|e]]|] eqn:Hg;
      [| |discriminate Hp]; injection Hp as <-.
    + right. exists img, tr, (inr f), f. cbn [gatewayCall]. rewrite Hg.
      split; [done|]. split; [done|].
      pose proof (reportProgress_frame tr
                    (s |> setIsLoading true |> setError None)) as (Hh & Hi & _).
      cbn in *. by rewrite Hh, Hi.
    + left. pose proof (reportProgress_frame tr
                    (s |> setIsLoading true |> setError None)) as (Hh & Hi & _).
      cbn in *. by rewrite Hh, Hi.
Qed.

(** ** Classification of a response *)

Lemma blockReasonOf_None (response : GenAI.GenerateContentResponse) :
  blockReasonOf response = None →
  truthyOpt (GenAI.promptFeedback response ?> GenAI.blockReason) = false.
Proof.
  unfold blockReasonOf.
  destruct (GenAI.promptFeedback response ?> GenAI.blockReason) as [reason|]; [|done].
  cbn. by destruct (truthyStr reason).
Qed.

Lemma blockReasonOf_Some (response : GenAI.GenerateContentResponse) (reason : string) :
  blockReasonOf response = Some reason →
  GenAI.promptFeedback response ?> GenAI.blockReason = Some reason ∧
  truthyStr reason = true.
Proof.
  unfold blockReasonOf.
  destruct (GenAI.promptFeedback response ?> GenAI.blockReason) as [r|]; [|done].
  destruct (truthyStr r) eqn:Ht; [|done]. intros [= <-]. done.
Qed.

Lemma inlinePayloadOf_chain (response : GenAI.GenerateContentResponse) :
  (GenAI.candidates response ?> head ?> GenAI.content ?> GenAI.parts
     ?> List.find hasInlineData ?> GenAI.inlineData)
  = inlinePayloadOf response.
Proof.
  unfold inlinePayloadOf.
  destruct (GenAI.candidates response) as [[|c cs]|]; cbn; [done| |done].
  destruct (GenAI.content c) as [ct|]; cbn; [|done].
  by destruct (GenAI.parts ct).
Qed.

Lemma abnormalFinishOf_chain (response : GenAI.GenerateContentResponse) :
  let finishReason := GenAI.candidates response ?> head ?> GenAI.finishReason in
  (truthyOpt finishReason && negb (bool_decide (finishReason = Some "STOP")))
  = bool_decide (is_Some (abnormalFinishOf response)) ∧
  (∀ reason, abnormalFinishOf response = Some reason → finishReason = Some reason).
Proof.
  unfold abnormalFinishOf.
  destruct (GenAI.candidates response) as [[|c cs]|]; cbn; try (by split).
  destruct (GenAI.finishReason c) as [r|]; cbn; [|by split].
  assert (bool_decide (Some r = Some "STOP") = bool_decide (r = "STOP")) as ->
    by (apply bool_decide_ext; split; congruence).
  destruct (truthyStr r && negb (bool_decide (r = "STOP"))); cbn; split; try done.
Qed.

Lemma carries_middle (before needle after : string) :
  carries needle (before +:+ needle +:+ after).
Proof. by exists before, after. Qed.

Lemma handleApiResponse_payload
    (response : GenAI.GenerateContentResponse) (context : string) (payload : GenAI.Blob) :
  blockReasonOf response = None → inlinePayloadOf response = Some payload →
  handleApiResponse response context
    = Return ("data:" +:+ jsStr (GenAI.mimeType payload) +:+ ";base64,"
                +:+ jsStr (GenAI.data payload)).
Proof.
  intros Hb Hp. unfold handleApiResponse. cbv zeta.
  by rewrite inlinePayloadOf_chain, (blockReasonOf_None _ Hb), Hp.
Qed.

(** C4. The classification of a response goes by priority.
    (a) A present block reason gives a thrown refusal that carries the
        reason and, when there is one, the explanatory message.
    (b) Otherwise an inline payload gives success: the data URL made of
        its MIME type and data.
    (c) Otherwise a completion reason other than the normal stop gives a
        thrown failure that carries the reason and the safety note.
    (d) Otherwise the failure carries the text of the response, or the
        generic no-image advice when the response has no text. *)
Theorem response_classified_by_priority
    (response : GenAI.GenerateContentResponse) (context : string) :
  (∀ reason, blockReasonOf response = Some reason →
     let explanation := orEmpty (GenAI.promptFeedback response ?> GenAI.blockReasonMessage) in
     handleApiResponse response context
       = Throw (ErrorObj ("Request was blocked. Reason: " +:+ reason +:+ ". " +:+ explanation)) ∧
     carries reason ("Request was blocked. Reason: " +:+ reason +:+ ". " +:+ explanation)) ∧
  (∀ payload, blockReasonOf response = None → inlinePayloadOf response = Some payload →
     handleApiResponse response context
       = Return ("data:" +:+ jsStr (GenAI.mimeType payload) +:+ ";base64,"
                   +:+ jsStr (GenAI.data payload))) ∧
  (∀ reason, blockReasonOf response = None → inlinePayloadOf response = None →
     abnormalFinishOf response = Some reason →
     handleApiResponse response context
       = Throw (ErrorObj ("Image generation for " +:+ context
                  +:+ " stopped unexpectedly. Reason: " +:+ reason
                  +:+ ". This often relates to safety settings.")) ∧
     reason ≠ "STOP") ∧
  (blockReasonOf response = None → inlinePayloadOf response = None →
     abnormalFinishOf response = None →
     match feedbackTextOf response with
     | Some t =>
         handleApiResponse response context
           = Throw (ErrorObj ("The AI model did not return an image for the " +:+ context
                      +:+ ". " +:+ "The model responded with text: "
                      +:+ dquote +:+ t +:+ dquote))
     | None =>
         handleApiResponse response context
           = Throw (ErrorObj ("The AI model did not return an image for the " +:+ context
                      +:+ ". " +:+ noImageAdvice))
     end).
Proof.
  unfold handleApiResponse. cbv zeta.
  rewrite inlinePayloadOf_chain.
  destruct (abnormalFinishOf_chain response) as [Hfin Hreason]. cbv zeta in Hfin, Hreason.
  rewrite Hfin. clear Hfin.
  split; [|split; [|split]].
  - intros reason Hb. apply blockReasonOf_Some in Hb as [Hb Ht].
    rewrite Hb. cbn [truthyOpt]. rewrite Ht.
    split; [done|apply carries_middle].
  - intros payload Hb Hp. by rewrite (blockReasonOf_None _ Hb), Hp.
  - intros reason Hb Hp Hf.
    rewrite (blockReasonOf_None _ Hb), Hp, (Hreason _ Hf).
    rewrite bool_decide_eq_true_2 by (rewrite Hf; by eexists).
    split; [done|].
    unfold abnormalFinishOf in Hf.
    destruct (GenAI.candidates response) as [[|c cs]|]; try done.
    destruct (GenAI.finishReason c) as [r|]; [|done].
    destruct (truthyStr r && negb (bool_decide (r = "STOP"))) eqn:Hr; [|done].
    injection Hf as <-.
    apply andb_true_iff in Hr as [_ Hr]. apply negb_true_iff in Hr.
    by apply bool_decide_eq_false in Hr.
  - intros Hb Hp Hf. rewrite (blockReasonOf_None _ Hb), Hp.
    rewrite bool_decide_eq_false_2 by (rewrite Hf; by intros []).
    unfold feedbackTextOf. destruct (GenAI.text response) as [t|]; cbn; [|done].
    by destruct (truthyStr (trim t)).
Qed.

Lemma response_classified_by_priority_witness :
  handleApiResponse blockedResponse "filter"
    = Throw (ErrorObj "Request was blocked. Reason: SAFETY. Unsafe prompt.") ∧
  handleApiResponse (imageResponse "image/png" "aGk=") "filter"
    = Return "data:image/png;base64,aGk=" ∧
  handleApiResponse stoppedResponse "filter"
    = Throw (ErrorObj "Image generation for filter stopped unexpectedly. Reason: IMAGE_SAFETY. This often relates to safety settings.") ∧
  handleApiResponse (textResponse (Some " I cannot do that. ")) "filter"
    = Throw (ErrorObj ("The AI model did not return an image for the filter. The model responded with text: "
               +:+ dquote +:+ "I cannot do that." +:+ dquote)) ∧
  handleApiResponse (textResponse None) "filter"
    = Throw (ErrorObj ("The AI model did not return an image for the filter. " +:+ noImageAdvice)).
Proof.
  split.
  { destruct (response_classified_by_priority blockedResponse "filter") as (Ha & _).
    exact (proj1 (Ha "SAFETY" eq_refl)). }
  split.
  { destruct (response_classified_by_priority (imageResponse "image/png" "aGk=") "filter")
      as (_ & Hb & _).
    exact (Hb _ eq_refl eq_refl). }
  split.
  { destruct (response_classified_by_priority stoppedResponse "filter") as (_ & _ & Hc & _).
    exact (proj1 (Hc "IMAGE_SAFETY" eq_refl eq_refl eq_refl)). }
  split.
  { destruct (response_classified_by_priority (textResponse (Some " I cannot do that. ")) "filter")
      as (_ & _ & _ & Hd).
    exact (Hd eq_refl eq_refl eq_refl). }
  destruct (response_classified_by_priority (textResponse None) "filter") as (_ & _ & _ & Hd).
  exact (Hd eq_refl eq_refl eq_refl).
Defined.

(** ** The polling loop of the animate operation *)

Section Polling.

Variable env : Env.

Lemma pollLoop_runs (fuel : nat) :
  ∀ (operation : GenAI.Operation) (attempts : Z) (trace0 : list Event),
    (Z.to_nat (maxAttempts - attempts) ≤ fuel)%nat →
    ∃ trace r,
      pollLoop env fuel operation attempts trace0 = Some (trace0 ++ trace, r) ∧
      Polls env operation attempts trace r.
Proof.
  induction fuel as [|fuel IH]; intros operation attempts trace0 Hfuel.
  - exists [], (Return (operation, attempts)). cbn [pollLoop].
    rewrite bool_decide_eq_false_2 by lia. rewrite andb_false_r, app_nil_r.
    split; [done|]. constructor. right. lia.
  - cbn [pollLoop].
    destruct (GenAI.done operation) eqn:Hdone; cbn [negb andb].
    { exists [], (Return (operation, attempts)). rewrite app_nil_r.
      split; [done|]. constructor. by left. }
    case_bool_decide as Hlt.
    2:{ exists [], (Return (operation, attempts)). rewrite app_nil_r.
        split; [done|]. constructor. right. lia. }
    unfold bindT, emit, await.
    destruct (getVideosOperation env attempts operation) as [operation'|e] eqn:Hq.
    + destruct (IH operation' (attempts + 1)
                  (((trace0 ++ [EvSleep pollInterval])
                      ++ [EvProgress (checkingProgress attempts)])
                      ++ [EvStatusQuery attempts])) as (trace & r & Hrun & Hpolls); [lia|].
      exists (pollRound attempts ++ trace), r. split.
      * rewrite Hrun. unfold pollRound. by rewrite <- !app_assoc.
      * by eapply Polls_round.
    + exists (pollRound attempts), (Throw e). split.
      * unfold pollRound. by rewrite <- !app_assoc.
      * by apply Polls_throw.
Qed.

Lemma timeSlept_pollRounds (rounds : nat) :
  ∀ attempts, timeSlept (pollRounds attempts rounds) = Z.of_nat rounds * pollInterval ∧
              statusQueries (pollRounds attempts rounds) = Z.of_nat rounds.
Proof.
  induction rounds as [|n IH]; intros attempts; [done|].
  destruct (IH (attempts + 1)) as [IHs IHq].
  cbn [pollRounds pollRound app timeSlept statusQueries]. lia.
Qed.

Lemma Polls_shape operation attempts trace r :
  Polls env operation attempts trace r →
  0 ≤ attempts ≤ maxAttempts →
  ∃ rounds : nat,
    trace = pollRounds attempts rounds ∧
    attempts + Z.of_nat rounds ≤ maxAttempts ∧
    match r with
    | Return (operation', attempts') =>
        attempts' = attempts + Z.of_nat rounds ∧
        (GenAI.done operation' = true ∨ attempts' = maxAttempts) ∧
        (rounds = 0%nat → operation' = operation)
    | Throw _ => (1 ≤ rounds)%nat
    end.
Proof.
  induction 1 as [operation attempts Hstop
                 |operation attempts operation' trace r Hdone Hlt Hq Hrun IH
                 |operation attempts e Hdone Hlt Hq]; intros Hrange.
  - exists 0%nat. split; [done|]. split; [lia|].
    split; [lia|]. split; [|done]. destruct Hstop; [by left|right; lia].
  - destruct IH as (n & -> & Hle & Hr); [lia|].
    exists (S n). split; [done|]. split; [lia|].
    destruct r as [[operation'' attempts'']|e]; [|lia].
    destruct Hr as (-> & Hend & _). split; [lia|]. split; [|done].
    destruct Hend; [by left|right; lia].
  - exists 1%nat. split; [by rewrite <- (app_nil_r (pollRound attempts))|].
    split; [lia|lia].
Qed.

End Polling.

(** ** From the inline payload to the file at the head of the history *)

Section RoundTrip.

Implicit Types (s t : string) (c : ascii).

Lemma append_String c s t : String c s +:+ t = String c (s +:+ t).
Proof. reflexivity. Qed.

Lemma append_empty t : "" +:+ t = t.
Proof. reflexivity. Qed.

Lemma append_assoc s t u : (s +:+ t) +:+ u = s +:+ t +:+ u.
Proof.
  induction s as [|a s IH]; [done|]. by rewrite !append_String, IH.
Qed.

Lemma occursIn_append c s t :
  occursIn c (s +:+ t) = occursIn c s || occursIn c t.
Proof.
  induction s as [|a s IH]; [done|].
  rewrite append_String. cbn [occursIn]. by rewrite IH, orb_assoc.
Qed.

Lemma split_without_separator c s : occursIn c s = false → split c s = [s].
Proof.
  induction s as [|a s IH]; cbn; [done|].
  intros [Ha Hs]%orb_false_iff. apply bool_decide_eq_false in Ha.
  destruct (decide (a = c)) as [|_]; [done|]. by rewrite IH.
Qed.

Lemma split_at_separator c s t :
  occursIn c s = false → split c (s +:+ String c t) = s :: split c t.
Proof.
  induction s as [|a s IH].
  - intros _. rewrite append_empty. cbn [split]. by destruct (decide (c = c)).
  - rewrite append_String. cbn [split occursIn].
    intros [Ha Hs]%orb_false_iff. apply bool_decide_eq_false in Ha.
    destruct (decide (a = c)) as [|_]; [done|]. by rewrite IH.
Qed.

Lemma lazyUntilSemicolon_append s t :
  occursIn ";"%char s = false →
  occursIn "010"%char s = false → occursIn "013"%char s = false →
  lazyUntilSemicolon (s +:+ String ";"%char t) = Some s.
Proof.
  induction s as [|a s IH]; [done|].
  rewrite append_String. cbn [lazyUntilSemicolon occursIn].
  intros [Ha Hs]%orb_false_iff [Hlf Hs1]%orb_false_iff [Hcr Hs2]%orb_false_iff.
  apply bool_decide_eq_false in Ha.
  destruct (decide (a = ";"%char)) as [|_]; [done|].
  unfold isLineTerminator. rewrite Hlf, Hcr. cbn [orb]. by rewrite IH.
Qed.

Lemma plainMime_spec mime :
  plainMime mime = true →
  truthyStr mime = true ∧ occursIn ","%char mime = false ∧
  occursIn ";"%char mime = false ∧
  occursIn "010"%char mime = false ∧ occursIn "013"%char mime = false.
Proof.
  unfold plainMime. rewrite !andb_true_iff, !negb_true_iff. tauto.
Qed.

Lemma length_charCodes s : length (charCodes s) = String.length s.
Proof. induction s as [|a s IH]; cbn; [done|]. by rewrite IH. Qed.

Lemma lookup_charCodes s (i : nat) :
  (i < String.length s)%nat → charCodes s !! i = Some (charCodeAt s i).
Proof.
  revert i. induction s as [|a s IH]; intros i Hi; cbn in Hi; [lia|].
  destruct i as [|i].
  - cbn. unfold charCodeAt. cbn. f_equal.
    pose proof (N_ascii_bounded a). rewrite Z.mod_small; lia.
  - cbn. rewrite IH by lia. done.
Qed.

(** The loop of [dataURLtoFile] with its counter at [n] copies the first
    [n] code units and leaves the rest of the array as it is. *)
Lemma fillU8_prefix s (n : nat) :
  ∀ u8arr : list Z,
    length u8arr = String.length s → (n ≤ String.length s)%nat →
    fillU8 s n u8arr = take n (charCodes s) ++ drop n u8arr.
Proof.
  induction n as [|n IH]; intros u8arr Hlen Hn; [done|].
  cbn [fillU8]. rewrite IH by (rewrite ?length_insert; lia).
  rewrite (take_S_r _ _ (charCodeAt s n)) by (apply lookup_charCodes; lia).
  rewrite <- app_assoc. f_equal.
  rewrite insert_take_drop by lia.
  rewrite drop_app_length'; [done|]. rewrite length_take. lia.
Qed.

Lemma fillU8_all s :
  fillU8 s (String.length s) (replicate (String.length s) 0) = charCodes s.
Proof.
  rewrite fillU8_prefix by (rewrite ?length_replicate; lia).
  rewrite take_ge by (rewrite length_charCodes; lia).
  rewrite drop_ge by (rewrite length_replicate; lia).
  apply app_nil_r.
Qed.

Lemma atob_Return (env : Env) data bstr :
  atob env data = Return bstr ↔ base64Decode data = Some bstr.
Proof.
  unfold atob. destruct (base64Decode data); split; intros H; by simplify_eq.
Qed.

Lemma toAsciiLower_normal c :
  isPrintableAscii c = true →
  isPrintableAscii (toAsciiLower c) = true ∧ isAsciiUpper (toAsciiLower c) = false.
Proof. by destruct c as [[] [] [] [] [] [] [] []]. Qed.

Lemma toAsciiLower_fixes c : isAsciiUpper c = false → toAsciiLower c = c.
Proof. unfold toAsciiLower, isAsciiUpper. by intros ->. Qed.

Lemma toAsciiLower_keeps_marks c (m : ascii) :
  isAsciiUpper m = false →
  (∀ a, isAsciiUpper a = true → toAsciiLower a ≠ m) →
  bool_decide (toAsciiLower c = m) = bool_decide (c = m).
Proof.
  intros Hm Hup. unfold toAsciiLower. fold (isAsciiUpper c).
  destruct (isAsciiUpper c) eqn:Hc; [|done].
  rewrite bool_decide_eq_false_2.
  - symmetry. apply bool_decide_eq_false. intros ->. congruence.
  - specialize (Hup c Hc). by unfold toAsciiLower in Hup; fold (isAsciiUpper c) in Hup;
      rewrite Hc in Hup.
Qed.

Lemma toAsciiLower_not_semicolon a : isAsciiUpper a = true → toAsciiLower a ≠ ";"%char.
Proof. by destruct a as [[] [] [] [] [] [] [] []]. Qed.

Lemma normalizeType_normal t : isNormalType (normalizeType t) = true.
Proof.
  unfold normalizeType. destruct (allChars isPrintableAscii t) eqn:Hp; [|done].
  induction t as [|c t IH]; [done|]. cbn [allChars mapChars isNormalType] in *.
  apply andb_true_iff in Hp as [Hc Ht].
  destruct (toAsciiLower_normal c Hc) as [-> ->]. by apply IH.
Qed.

Lemma normalizeType_id t : isNormalType t = true → normalizeType t = t.
Proof.
  unfold normalizeType, isNormalType. intros Hn.
  assert (Hp : allChars isPrintableAscii t = true).
  { induction t as [|c t IH]; [done|]. cbn [allChars] in *.
    apply andb_true_iff in Hn as [[-> _]%andb_true_iff Ht]. by apply IH. }
  rewrite Hp. clear Hp. induction t as [|c t IH]; [done|]. cbn [allChars mapChars] in *.
  apply andb_true_iff in Hn as [[_ Hu%negb_true_iff]%andb_true_iff Ht].
  by rewrite (toAsciiLower_fixes c Hu), IH.
Qed.

Lemma normalizeType_no_semicolon t :
  occursIn ";"%char t = false → occursIn ";"%char (normalizeType t) = false.
Proof.
  unfold normalizeType. destruct (allChars isPrintableAscii t); [|done]. clear.
  induction t as [|c t IH]; [done|]. cbn [occursIn mapChars].
  intros [Hc Ht]%orb_false_iff.
  rewrite (toAsciiLower_keeps_marks c ";"%char) by
    (first [reflexivity | apply toAsciiLower_not_semicolon]).
  by rewrite Hc, IH.
Qed.

Lemma dataURLtoFile_dataUrlOf (env : Env) mime data bstr filename :
  plainMime mime = true → occursIn ","%char data = false →
  atob env data = Return bstr →
  dataURLtoFile env (dataUrlOf mime data) filename
    = Return (newFile (charCodes bstr) filename mime).
Proof.
  intros (Hne & Hcomma & Hsemi & Hlf & Hcr)%plainMime_spec Hdata Hatob.
  unfold dataURLtoFile, dataUrlOf.
  replace ("data:" +:+ mime +:+ ";base64," +:+ data)
    with (("data:" +:+ mime +:+ ";base64") +:+ String ","%char data)
    by (rewrite !append_assoc; reflexivity).
  rewrite split_at_separator
    by (rewrite !occursIn_append, Hcomma; reflexivity).
  rewrite (split_without_separator _ _ Hdata).
  assert (matchMime ("data:" +:+ mime +:+ ";base64") = Some mime) as ->.
  { rewrite !append_String, append_empty. cbn [matchMime].
    repeat (destruct (decide _) as [|_]; [discriminate|]).
    destruct (decide _) as [_|]; [|done].
    by rewrite lazyUntilSemicolon_append. }
  rewrite Hne, Hatob. cbn [bindO]. by rewrite fillU8_all.
Qed.

Lemma currentImage_addImageToHistory (f : File) (st : AppState) :
  currentImage (addImageToHistory f st) = Some f.
Proof.
  unfold currentImage, jsIndex. rewrite addImageToHistory_index.
  cbn [addImageToHistory history setHistory setHistoryIndex setCrop setCompletedCrop].
  rewrite length_app. cbn [length].
  case_decide; [lia|].
  replace (Z.to_nat _) with (length (slice0 (history st) (historyIndex st + 1))) by lia.
  by rewrite list_lookup_middle.
Qed.

End RoundTrip.

Lemma bindO_inl_return {A B} (o : Outcome A) (a : A) :
  bindO o (λ u, Return (inl u : A + B)) = Return (inl a) → o = Return a.
Proof. destruct o; cbn; congruence. Qed.

(** A synchronous operation whose gateway call returned [url], and whose
    conversion gave [f], shows [f] as the current image afterwards. *)
Lemma sync_success_reads_back (env : Env) (fuel : nat) (req : OperationRequest)
    (s : AppState) (img : File) (trace : list Event) (url : string) (f : File) :
  currentImage s = Some img →
  dispatched req s = true →
  gatewayCall env fuel req s img = Some (trace, Return (inl url)) →
  dataURLtoFile env url (resultName req env) = Return f →
  ∃ s', perform env fuel req s = Some s' ∧
        currentImage s' = Some f ∧ error s' = None.
Proof.
  intros Himg Hguard Hcall Hfile. unfold dispatched in Hguard. rewrite Himg in Hguard.
  apply andb_true_iff in Hguard as [Hvideo%negb_true_iff Hguard].
  destruct req; cbn [gatewayCall] in Hcall; cbn [perform resultName] in *.
  - destruct (editHotspot s) as [h|] eqn:Hh; [|discriminate].
    apply andb_true_iff in Hguard as [Hprompt _].
    injection Hcall as <- Hcall. apply bindO_inl_return in Hcall.
    unfold handleGenerate. rewrite Himg, Hvideo, Hprompt, Hh, Hcall.
    cbn [negb bindO]. rewrite Hfile.
    eexists. split; [reflexivity|]. split; [|reflexivity].
    apply (currentImage_addImageToHistory f).
  - injection Hcall as <- Hcall. apply bindO_inl_return in Hcall.
    unfold handleApplyFilter. rewrite Himg, Hvideo, Hcall. cbn [bindO]. rewrite Hfile.
    eexists. split; [reflexivity|]. split; [|reflexivity].
    apply (currentImage_addImageToHistory f).
  - injection Hcall as <- Hcall. apply bindO_inl_return in Hcall.
    unfold handleApplyAdjustment. rewrite Himg, Hvideo, Hcall. cbn [bindO]. rewrite Hfile.
    eexists. split; [reflexivity|]. split; [|reflexivity].
    apply (currentImage_addImageToHistory f).
  - injection Hcall as <- Hcall. apply bindO_inl_return in Hcall.
    unfold handleGenerate3DView. rewrite Himg, Hvideo, Hcall. cbn [bindO]. rewrite Hfile.
    eexists. split; [reflexivity|]. split; [|reflexivity].
    apply (currentImage_addImageToHistory f).
  - injection Hcall as <- Hcall. apply bindO_inl_return in Hcall.
    unfold handleRemoveBackground. rewrite Himg, Hvideo, Hcall. cbn [bindO]. rewrite Hfile.
    eexists. split; [reflexivity|]. split; [|reflexivity].
    apply (currentImage_addImageToHistory f).
  - injection Hcall as <- Hcall. apply bindO_inl_return in Hcall.
    unfold handleRestorePhoto. rewrite Himg, Hvideo, Hcall. cbn [bindO]. rewrite Hfile.
    eexists. split; [reflexivity|]. split; [|reflexivity].
    apply (currentImage_addImageToHistory f).
  - injection Hcall as <- Hcall. apply bindO_inl_return in Hcall.
    unfold handleGroupRestorePhoto. rewrite Himg, Hvideo, Hcall. cbn [bindO]. rewrite Hfile.
    eexists. split; [reflexivity|]. split; [|reflexivity].
    apply (currentImage_addImageToHistory f).
  - destruct (generateVideoFromImage env fuel img prompt0 []) as [[tr [v|e]]|];
      discriminate.
Qed.

(** C9, as the code has it. Let the response be unblocked and its inline
    payload have a plain MIME type (not empty, no comma, semicolon or line
    terminator) and data without a comma whose base64 decoding is [bstr].
    Then the classification returns the data URL of the two; the
    conversion of that URL gives a file whose bytes are the decoded ones
    and whose type is the MIME type as the [File] constructor normalises
    it: in lower case, or empty when it has a character outside
    U+0020..U+007E, hence the MIME type itself when that is printable
    lower-case ASCII; and every synchronous operation that obtained this
    URL shows that file as the current image, a video exactly when the
    normalised type starts with "video/". *)
Theorem inline_payload_round_trip
    (response : GenAI.GenerateContentResponse) (context mime data bstr : string) :
  blockReasonOf response = None →
  inlinePayloadOf response
    = Some {| GenAI.mimeType := Some mime; GenAI.data := Some data |} →
  plainMime mime = true →
  occursIn ","%char data = false →
  base64Decode data = Some bstr →
  handleApiResponse response context = Return (dataUrlOf mime data) ∧
  (∀ env, atob env data = Return bstr) ∧
  (∀ env filename,
     dataURLtoFile env (dataUrlOf mime data) filename
       = Return {| name := filename; type := normalizeType mime;
                   bytes := charCodes bstr |}) ∧
  isNormalType (normalizeType mime) = true ∧
  (isNormalType mime = true → normalizeType mime = mime) ∧
  (allChars isPrintableAscii mime = true →
     normalizeType mime = mapChars toAsciiLower mime) ∧
  (allChars isPrintableAscii mime = false → normalizeType mime = "") ∧
  (∀ env fuel req s img trace,
     currentImage s = Some img →
     dispatched req s = true →
     gatewayCall env fuel req s img = Some (trace, Return (inl (dataUrlOf mime data))) →
     ∃ s', perform env fuel req s = Some s' ∧
           currentImage s'
             = Some {| name := resultName req env; type := normalizeType mime;
                       bytes := charCodes bstr |} ∧
           isCurrentItemVideo s' = startsWith "video/" (normalizeType mime)).
Proof.
  intros Hblock Hpayload Hmime Hdata Hdecode.
  assert (Hatob : ∀ env, atob env data = Return bstr)
    by (intros env; by apply atob_Return).
  split; [exact (handleApiResponse_payload _ context _ Hblock Hpayload)|].
  split; [done|].
  split; [intros env filename; by apply dataURLtoFile_dataUrlOf|].
  split; [apply normalizeType_normal|].
  split; [apply normalizeType_id|].
  split; [unfold normalizeType; by intros ->|].
  split; [unfold normalizeType; by intros ->|].
  intros env fuel req s img trace Himg Hguard Hcall.
  destruct (sync_success_reads_back env fuel req s img trace _ _
              Himg Hguard Hcall
              (dataURLtoFile_dataUrlOf env _ _ _ _ Hmime Hdata (Hatob env)))
    as (s' & Hs' & Hcur & _).
  exists s'. split; [done|]. split; [done|].
  unfold isCurrentItemVideo. by rewrite Hcur.
Qed.

Lemma inline_payload_round_trip_witness :
  handleApiResponse (imageResponse "image/png" "aGk=") "filter"
    = Return "data:image/png;base64,aGk=" ∧
  dataURLtoFile sampleEnv "data:image/png;base64,aGk=" "result.png"
    = Return {| name := "result.png"; type := "image/png"; bytes := [104; 105] |} ∧
  (∃ s', perform sampleEnv 0 (Filter "vintage") uploaded = Some s' ∧
         currentImage s'
           = Some {| name := "filtered-1700000000000.png"; type := "image/png";
                     bytes := [104; 105] |} ∧
         isCurrentItemVideo s' = false) ∧
  (∃ s', perform (serviceWith (Return (imageResponse "VIDEO/MP4" "aGk="))) 0
           (Filter "vintage") uploaded = Some s' ∧
         currentImage s'
           = Some {| name := "filtered-1700000000000.png"; type := "video/mp4";
                     bytes := [104; 105] |} ∧
         isCurrentItemVideo s' = true).
Proof.
  destruct (inline_payload_round_trip (imageResponse "image/png" "aGk=") "filter"
              "image/png" "aGk=" "hi" eq_refl eq_refl eq_refl eq_refl eq_refl)
    as (Hurl & _ & Hfile & _ & _ & _ & _ & Hhead).
  split; [exact Hurl|]. split; [exact (Hfile sampleEnv "result.png")|].
  split.
  - destruct (Hhead sampleEnv 0%nat (Filter "vintage") uploaded photo []
                eq_refl eq_refl eq_refl) as (s' & Hs' & Hcur & Hvideo).
    exists s'. split; [exact Hs'|]. split; [exact Hcur|exact Hvideo].
  - destruct (inline_payload_round_trip (imageResponse "VIDEO/MP4" "aGk=") "filter"
                "VIDEO/MP4" "aGk=" "hi" eq_refl eq_refl eq_refl eq_refl eq_refl)
      as (_ & _ & _ & _ & _ & _ & _ & Hupper).
    destruct (Hupper (serviceWith (Return (imageResponse "VIDEO/MP4" "aGk="))) 0%nat
                (Filter "vintage") uploaded photo [] eq_refl eq_refl eq_refl)
      as (s' & Hs' & Hcur & Hvideo).
    exists s'. split; [exact Hs'|]. split; [exact Hcur|exact Hvideo].
Defined.

(** C9, against the claim. The service labels its payload with a MIME
    type that has a parameter; the filter succeeds and appends its result,
    but the file read back as the current image has lost the parameter.
    Labelled as a video, the appended payload is not of image kind. *)
Lemma inline_payload_mime_not_recovered :
  let env := serviceWith (Return (imageResponse "image/svg+xml;charset=utf-8" "aGk=")) in
  let s' := handleApplyFilter env "vintage" uploaded in
  inlinePayloadOf (imageResponse "image/svg+xml;charset=utf-8" "aGk=")
    = Some {| GenAI.mimeType := Some "image/svg+xml;charset=utf-8";
              GenAI.data := Some "aGk=" |} ∧
  error s' = None ∧ historyIndex s' = 1 ∧
  (type <$> currentImage s') = Some "image/svg+xml" ∧
  (type <$> currentImage s') ≠ Some "image/svg+xml;charset=utf-8" ∧
  isCurrentItemVideo
    (handleApplyFilter (serviceWith (Return (imageResponse "video/mp4" "aGk=")))
       "vintage" uploaded) = true.
Proof. vm_compute. repeat split; discriminate. Qed.

(** ** Which appends clear the hotspot *)

(** C7, against the claim. A photo is uploaded and a point is marked; a
    filter then succeeds and appends its result (two entries, cursor 1),
    yet both hotspots are still set afterwards. *)
Lemma filter_append_leaves_hotspot_set :
  let s' := handleApplyFilter sampleEnv "vintage" marked in
  length (history s') = 2%nat ∧ historyIndex s' = 1 ∧
  editHotspot marked = Some (mkHotspot 10 20) ∧
  editHotspot s' = Some (mkHotspot 10 20) ∧
  displayHotspot s' = Some (mkHotspot 5 10).
Proof. vm_compute. repeat split. Qed.

Lemma perform_keeps_hotspot (env : Env) (fuel : nat) (req : OperationRequest)
    (s s' : AppState) :
  req ≠ Edit →
  perform env fuel req s = Some s' →
  editHotspot s' = editHotspot s ∧ displayHotspot s' = displayHotspot s.
Proof.
  intros Hreq Hp. destruct req; [done|..]; cbn [perform] in Hp.
  1-6: injection Hp as <-;
       unfold handleApplyFilter, handleApplyAdjustment, handleGenerate3DView,
         handleRemoveBackground, handleRestorePhoto, handleGroupRestorePhoto;
       repeat case_match; by split.
  unfold handleGenerateVideo in Hp.
  repeat case_match; simplify_eq; try by split.
  all: match goal with
       | |- context [reportProgress ?tr ?s1] =>
           pose proof (reportProgress_frame tr s1) as (_ & _ & _ & He & Hd)
       end; cbn in *; by rewrite He, Hd.
Qed.

Lemma handleGenerate_success (env : Env) (s : AppState) (img : File)
    (hotspot : Hotspot) (url : string) (f : File) :
  currentImage s = Some img →
  isCurrentItemVideo s = false →
  truthyStr (trim (prompt s)) = true →
  editHotspot s = Some hotspot →
  generateEditedImage env img (prompt s) hotspot = Return url →
  dataURLtoFile env url (pngName "edited" env) = Return f →
  handleGenerate env s
    = (s |> setIsLoading true |> setLoadingMessage workingMessage |> setError None
         |> addImageToHistory f |> setEditHotspot None |> setDisplayHotspot None
         |> setIsLoading false).
Proof.
  intros Himg Hvideo Hprompt Hh Hcall Hfile.
  unfold handleGenerate. rewrite Himg, Hvideo, Hprompt, Hh, Hcall.
  cbn [negb bindO]. by rewrite Hfile.
Qed.

(** C7, as the code has it. An append by itself clears the crop selection
    and leaves both hotspots as they are.  So every operation other than
    the edit (filter, adjustment, 3-D view, background removal, restore,
    group-restore, animate, and the crop), whether it appends or fails,
    ends with the hotspots it started with; a successful edit appends its
    result and then clears both. *)
Theorem hotspot_cleared_by_edit_kept_by_other_appends :
  (∀ f s,
     let s' := addImageToHistory f s in
     editHotspot s' = editHotspot s ∧ displayHotspot s' = displayHotspot s ∧
     crop s' = None ∧ completedCrop s' = None) ∧
  (∀ env fuel req s s',
     req ≠ Edit → perform env fuel req s = Some s' →
     editHotspot s' = editHotspot s ∧ displayHotspot s' = displayHotspot s) ∧
  (∀ env s s',
     handleApplyCrop env s = Return s' →
     editHotspot s' = editHotspot s ∧ displayHotspot s' = displayHotspot s) ∧
  (∀ env fuel s img trace url f,
     currentImage s = Some img →
     dispatched Edit s = true →
     gatewayCall env fuel Edit s img = Some (trace, Return (inl url)) →
     dataURLtoFile env url (resultName Edit env) = Return f →
     let s' := handleGenerate env s in
     currentImage s' = Some f ∧ editHotspot s' = None ∧ displayHotspot s' = None).
Proof.
  split; [by intros f s|]. split; [apply perform_keeps_hotspot|]. split.
  - intros env s s' Hcrop. unfold handleApplyCrop in Hcrop.
    repeat case_match; simplify_eq; try by split.
    destruct (dataURLtoFile _ _ _); cbn in Hcrop; simplify_eq. by split.
  - intros env fuel s img trace url f Himg Hguard Hcall Hfile.
    unfold dispatched in Hguard. rewrite Himg in Hguard.
    apply andb_true_iff in Hguard as [Hvideo%negb_true_iff Hguard].
    apply andb_true_iff in Hguard as [Hprompt Hh].
    cbn [gatewayCall] in Hcall.
    destruct (editHotspot s) as [hotspot|] eqn:Hhot; [|discriminate].
    injection Hcall as <- Hcall. apply bindO_inl_return in Hcall.
    cbv zeta.
    rewrite (handleGenerate_success env s img hotspot url f) by done.
    split; [|by split].
    apply (currentImage_addImageToHistory f).
Qed.

Lemma hotspot_cleared_by_edit_kept_by_other_appends_witness :
  (∃ s', perform sampleEnv 0 (Adjustment "warmer") marked = Some s' ∧
         editHotspot s' = Some (mkHotspot 10 20)) ∧
  (∃ s', handleApplyCrop sampleEnv cropping = Return s' ∧
         editHotspot s' = Some (mkHotspot 10 20)) ∧
  editHotspot (handleGenerate sampleEnv (setPrompt "remove the lamp" marked)) = None.
Proof.
  destruct hotspot_cleared_by_edit_kept_by_other_appends as (_ & Hother & Hcrop & Hedit).
  split; [|split].
  - eexists. split; [reflexivity|].
    exact (proj1 (Hother sampleEnv 0%nat (Adjustment "warmer") marked _
                    ltac:(discriminate) eq_refl)).
  - eexists. split; [vm_compute; reflexivity|].
    refine (proj1 (Hcrop sampleEnv cropping _ _)). vm_compute. reflexivity.
  - exact (proj1 (proj2 (Hedit sampleEnv 0%nat (setPrompt "remove the lamp" marked)
                           photo [] "data:image/png;base64,aGk="
                           {| name := "edited-1700000000000.png"; type := "image/png";
                              bytes := [104; 105] |}
                           eq_refl eq_refl eq_refl eq_refl))).
Defined.

(** ** The scenarios of the specification, run *)

(** [A]; a filter gives [A, B] with the cursor at 1; undo shows A again;
    an adjustment gives [A, C], B being dropped; redo then changes
    nothing. *)
Example scenario_filter_undo_adjust_redo :
  let envB := serviceWith (Return (imageResponse "image/png" "Qg==")) in
  let envC := serviceWith (Return (imageResponse "image/png" "Qw==")) in
  let s1 := handleApplyFilter envB "vintage" uploaded in
  let s2 := handleUndo s1 in
  let s3 := handleApplyAdjustment envC "warmer" s2 in
  let s4 := handleRedo s3 in
  (bytes <$> history s1) = [[137; 80; 78; 71]; [66]] ∧ historyIndex s1 = 1 ∧
  historyIndex s2 = 0 ∧ currentImage s2 = Some photo ∧
  (bytes <$> history s3) = [[137; 80; 78; 71]; [67]] ∧ historyIndex s3 = 1 ∧
  s4 = s3.
Proof. vm_compute. repeat split. Qed.

(** The video operation is still not done after 30 status queries: the
    handler reports the timeout and the history is what it was. *)
Example scenario_animate_times_out :
  ∃ s', handleGenerateVideo sampleEnv 30 "a gentle breeze" uploaded = Some s' ∧
        history s' = [photo] ∧ historyIndex s' = 0 ∧
        error s' = Some "Failed to generate the video. Video generation timed out after 5 minutes.".
Proof. eexists. vm_compute. repeat split. Qed.

(** * Further properties of the code *)

(** ** Moving the cursor *)

Lemma handleUndo_index (s : AppState) :
  historyIndex (handleUndo s)
    = if bool_decide (historyIndex s > 0) then historyIndex s - 1 else historyIndex s.
Proof. unfold handleUndo, canUndo. by case_bool_decide. Qed.

Lemma handleRedo_index (s : AppState) :
  historyIndex (handleRedo s)
    = if bool_decide (historyIndex s < Z.of_nat (length (history s)) - 1)
      then historyIndex s + 1 else historyIndex s.
Proof. unfold handleRedo, canRedo. by case_bool_decide. Qed.

(** X1. Undo and redo undo each other as far as the history is concerned:
    after an undo that was possible, redo comes back to the same entry,
    and the other way round.  The hotspots do not come back. *)
Theorem undo_and_redo_are_inverse (s : AppState) :
  0 ≤ historyIndex s < Z.of_nat (length (history s)) →
  (canUndo s = true →
     let s' := handleRedo (handleUndo s) in
     history s' = history s ∧ historyIndex s' = historyIndex s ∧
     currentImage s' = currentImage s ∧
     editHotspot s' = None ∧ displayHotspot s' = None) ∧
  (canRedo s = true →
     let s' := handleUndo (handleRedo s) in
     history s' = history s ∧ historyIndex s' = historyIndex s ∧
     currentImage s' = currentImage s ∧
     editHotspot s' = None ∧ displayHotspot s' = None).
Proof.
  intros Hidx. split; intros Hcan; cbv zeta.
  - assert (Hu : handleUndo s = s |> setHistoryIndex (historyIndex s - 1)
                                  |> setEditHotspot None |> setDisplayHotspot None)
      by (unfold handleUndo; by rewrite Hcan).
    apply bool_decide_eq_true in Hcan.
    rewrite Hu. unfold handleRedo, canRedo. cbn.
    rewrite bool_decide_eq_true_2 by lia. cbn. unfold currentImage. cbn.
    repeat split; try done; try lia. f_equal. lia.
  - assert (Hr : handleRedo s = s |> setHistoryIndex (historyIndex s + 1)
                                  |> setEditHotspot None |> setDisplayHotspot None)
      by (unfold handleRedo; by rewrite Hcan).
    apply bool_decide_eq_true in Hcan.
    rewrite Hr. unfold handleUndo, canUndo. cbn.
    rewrite bool_decide_eq_true_2 by lia. cbn. unfold currentImage. cbn.
    repeat split; try done; try lia. f_equal. lia.
Qed.

Lemma undo_and_redo_are_inverse_witness :
  historyIndex (handleRedo (handleUndo (addImageToHistory emptyFile uploaded))) = 1 ∧
  historyIndex (handleUndo (handleRedo (handleUndo (addImageToHistory emptyFile uploaded)))) = 0.
Proof.
  split.
  - refine (proj1 (proj2 (proj1 (undo_and_redo_are_inverse
                                   (addImageToHistory emptyFile uploaded) _) eq_refl))).
    vm_compute. split; [discriminate|reflexivity].
  - refine (proj1 (proj2 (proj2 (undo_and_redo_are_inverse
                                   (handleUndo (addImageToHistory emptyFile uploaded)) _)
                            eq_refl))).
    vm_compute. split; [discriminate|reflexivity].
Defined.

Lemma iter_undo_lands (k : nat) (s : AppState) :
  0 ≤ historyIndex s →
  historyIndex (Nat.iter k handleUndo s) = Z.max (historyIndex s - Z.of_nat k) 0 ∧
  history (Nat.iter k handleUndo s) = history s.
Proof.
  intros H. induction k as [|k [IHi IHh]]; [cbn; split; [lia|done]|].
  change (Nat.iter (S k) handleUndo s) with (handleUndo (Nat.iter k handleUndo s)).
  rewrite handleUndo_index, handleUndo_history, IHi.
  split; [|done]. case_bool_decide; lia.
Qed.

Lemma iter_redo_lands (k : nat) (s : AppState) :
  historyIndex s ≤ Z.of_nat (length (history s)) - 1 →
  historyIndex (Nat.iter k handleRedo s)
    = Z.min (historyIndex s + Z.of_nat k) (Z.of_nat (length (history s)) - 1) ∧
  history (Nat.iter k handleRedo s) = history s.
Proof.
  intros H. induction k as [|k [IHi IHh]]; [cbn; split; [lia|done]|].
  change (Nat.iter (S k) handleRedo s) with (handleRedo (Nat.iter k handleRedo s)).
  rewrite handleRedo_index, handleRedo_history, IHi, IHh.
  split; [|done]. case_bool_decide; lia.
Qed.

(** X2. [k] undos from cursor [h] stop at [max (h - k) 0]; [k] redos stop at
    [min (h + k) (length - 1)]; neither touches the entries. *)
Theorem repeated_undo_redo_saturate (s : AppState) (k : nat) :
  (0 ≤ historyIndex s →
     historyIndex (Nat.iter k handleUndo s) = Z.max (historyIndex s - Z.of_nat k) 0 ∧
     history (Nat.iter k handleUndo s) = history s) ∧
  (historyIndex s ≤ Z.of_nat (length (history s)) - 1 →
     historyIndex (Nat.iter k handleRedo s)
       = Z.min (historyIndex s + Z.of_nat k) (Z.of_nat (length (history s)) - 1) ∧
     history (Nat.iter k handleRedo s) = history s).
Proof. split; [apply iter_undo_lands|apply iter_redo_lands]. Qed.

Lemma repeated_undo_redo_saturate_witness :
  historyIndex (Nat.iter 5 handleUndo (addImageToHistory emptyFile uploaded)) = 0 ∧
  historyIndex (Nat.iter 5 handleRedo uploaded) = 0.
Proof.
  split.
  - refine (proj1 (proj1 (repeated_undo_redo_saturate
                            (addImageToHistory emptyFile uploaded) 5) _)).
    vm_compute. discriminate.
  - refine (proj1 (proj2 (repeated_undo_redo_saturate uploaded 5) _)).
    vm_compute. discriminate.
Defined.

Lemma handleUndo_keeps_cleared (s : AppState) :
  editHotspot s = None → displayHotspot s = None →
  editHotspot (handleUndo s) = None ∧ displayHotspot (handleUndo s) = None.
Proof. intros He Hd. unfold handleUndo. by destruct (canUndo s). Qed.

Lemma iter_undo_keeps_cleared (k : nat) (s : AppState) :
  editHotspot s = None → displayHotspot s = None →
  editHotspot (Nat.iter k handleUndo s) = None ∧
  displayHotspot (Nat.iter k handleUndo s) = None.
Proof.
  intros He Hd. induction k as [|k [IHe IHd]]; [done|].
  change (Nat.iter (S k) handleUndo s) with (handleUndo (Nat.iter k handleUndo s)).
  by apply handleUndo_keeps_cleared.
Qed.

(** X3. Reset is undo all the way: from a cursor [h > 0], reset and [h] undos
    end with the same entries, cursor and (cleared) hotspots.  They differ
    on the error, which reset clears and undo leaves alone. *)
Theorem reset_is_undo_all_the_way (s : AppState) :
  0 < historyIndex s < Z.of_nat (length (history s)) →
  let t := Nat.iter (Z.to_nat (historyIndex s)) handleUndo s in
  history (handleReset s) = history t ∧
  historyIndex (handleReset s) = historyIndex t ∧
  currentImage (handleReset s) = originalImage s ∧
  currentImage t = originalImage s ∧
  editHotspot (handleReset s) = editHotspot t ∧
  displayHotspot (handleReset s) = displayHotspot t ∧
  error (handleReset s) = None ∧ error t = error s.
Proof.
  intros Hidx t.
  assert (Hreset : handleReset s = s |> setHistoryIndex 0 |> setError None
                                     |> setEditHotspot None |> setDisplayHotspot None).
  { unfold handleReset. by rewrite bool_decide_eq_true_2 by lia. }
  destruct (iter_undo_lands (Z.to_nat (historyIndex s)) s) as [Hti Hth];
    [lia|]. fold t in Hti, Hth.
  assert (Ht0 : historyIndex t = 0) by lia.
  assert (Hhot : editHotspot t = None ∧ displayHotspot t = None).
  { subst t. destruct (Z.to_nat (historyIndex s)) as [|k] eqn:Hk; [lia|].
    rewrite Nat.iter_succ_r. apply iter_undo_keeps_cleared;
      unfold handleUndo, canUndo; by rewrite bool_decide_eq_true_2 by lia. }
  assert (Herr : error t = error s).
  { subst t. generalize (Z.to_nat (historyIndex s)). intros k.
    induction k as [|k IH]; [done|].
    change (Nat.iter (S k) handleUndo s) with (handleUndo (Nat.iter k handleUndo s)).
    rewrite <- IH. unfold handleUndo. by destruct (canUndo _). }
  destruct Hhot as [He Hd]. rewrite Hreset. unfold currentImage, originalImage.
  rewrite Hth, Ht0, He, Hd. by repeat split.
Qed.

Lemma reset_is_undo_all_the_way_witness :
  history (handleReset (addImageToHistory emptyFile uploaded))
    = history (Nat.iter 1 handleUndo (addImageToHistory emptyFile uploaded)) ∧
  currentImage (handleReset (addImageToHistory emptyFile uploaded)) = Some photo.
Proof.
  assert (H : 0 < historyIndex (addImageToHistory emptyFile uploaded)
              < Z.of_nat (length (history (addImageToHistory emptyFile uploaded))))
    by (vm_compute; split; reflexivity).
  destruct (reset_is_undo_all_the_way _ H) as (Hh & _ & Hc & _).
  split; [exact Hh|exact Hc].
Defined.

(** ** Append, then step back *)

(** X4. An append can be undone: undo right after it shows the image that was
    current before, and redo after that shows the appended file again. *)
Theorem append_can_be_undone (f : File) (s : AppState) :
  0 ≤ historyIndex s < Z.of_nat (length (history s)) →
  let s' := addImageToHistory f s in
  canUndo s' = true ∧
  currentImage (handleUndo s') = currentImage s ∧
  historyIndex (handleUndo s') = historyIndex s ∧
  currentImage (handleRedo (handleUndo s')) = Some f ∧
  take (Z.to_nat (historyIndex s + 1)) (history s')
    = take (Z.to_nat (historyIndex s + 1)) (history s).
Proof.
  intros Hidx s'.
  assert (Hh : history s' = take (Z.to_nat (historyIndex s + 1)) (history s) ++ [f])
    by (apply addImageToHistory_history; lia).
  assert (Hlen : Z.of_nat (length (history s')) = historyIndex s + 2)
    by (rewrite Hh, length_app, length_take; cbn; lia).
  assert (Hi : historyIndex s' = historyIndex s + 1)
    by (unfold s'; rewrite addImageToHistory_index; fold s'; lia).
  assert (Hcan : canUndo s' = true)
    by (unfold canUndo; apply bool_decide_eq_true; lia).
  assert (Hu : handleUndo s' = s' |> setHistoryIndex (historyIndex s' - 1)
                                   |> setEditHotspot None |> setDisplayHotspot None)
    by (unfold handleUndo; by rewrite Hcan).
  split; [done|]. split; [|split; [|split]].
  - rewrite Hu. unfold currentImage, jsIndex. cbn [history historyIndex setHistoryIndex
      setEditHotspot setDisplayHotspot]. rewrite Hi, Hh.
    replace (historyIndex s + 1 - 1) with (historyIndex s) by lia.
    case_decide; [lia|].
    rewrite lookup_app_l by (rewrite length_take; lia).
    by rewrite lookup_take_lt by lia.
  - rewrite handleUndo_index, Hi. rewrite bool_decide_eq_true_2 by lia. lia.
  - rewrite Hu. unfold handleRedo, canRedo.
    cbn [history historyIndex setHistoryIndex setEditHotspot setDisplayHotspot].
    rewrite bool_decide_eq_true_2 by lia.
    unfold currentImage, jsIndex.
    cbn [history historyIndex setHistoryIndex setEditHotspot setDisplayHotspot].
    case_decide; [lia|]. rewrite Hh.
    replace (Z.to_nat (historyIndex s' - 1 + 1))
      with (length (take (Z.to_nat (historyIndex s + 1)) (history s)))
      by (rewrite length_take; lia).
    by rewrite list_lookup_middle.
  - rewrite Hh. rewrite take_app_le by (rewrite length_take; lia).
    by rewrite take_take, Nat.min_id.
Qed.

Lemma append_can_be_undone_witness :
  currentImage (handleUndo (addImageToHistory emptyFile uploaded)) = Some photo ∧
  currentImage (handleRedo (handleUndo (addImageToHistory emptyFile uploaded)))
    = Some emptyFile.
Proof.
  assert (H : 0 ≤ historyIndex uploaded < Z.of_nat (length (history uploaded)))
    by (vm_compute; split; [discriminate|reflexivity]).
  destruct (append_can_be_undone emptyFile uploaded H) as (_ & Hu & _ & Hr & _).
  split; [exact Hu|exact Hr].
Defined.

(** ** The animate operation as a whole *)

Lemma timeSlept_app (t1 t2 : list Event) :
  timeSlept (t1 ++ t2) = timeSlept t1 + timeSlept t2 ∧
  statusQueries (t1 ++ t2) = statusQueries t1 + statusQueries t2.
Proof.
  induction t1 as [|ev t1 [IHs IHq]]; [done|].
  destruct ev; cbn [app timeSlept statusQueries]; lia.
Qed.

Lemma downloadLinkOf_truthy (operation : GenAI.Operation) :
  truthyOpt (GenAI.response operation ?> GenAI.generatedVideos ?> head
               ?> GenAI.video ?> GenAI.uri)
  = bool_decide (is_Some (downloadLinkOf operation)) ∧
  ∀ link, downloadLinkOf operation = Some link →
          jsStr (GenAI.response operation ?> GenAI.generatedVideos ?> head
                   ?> GenAI.video ?> GenAI.uri) = link.
Proof.
  unfold downloadLinkOf.
  destruct (_ ?> GenAI.uri) as [link|]; cbn; [|by split].
  destruct (truthyStr link); cbn; split; try done. by intros ? [= <-].
Qed.

Lemma generateVideoFromImage_unfold (env : Env) (fuel : nat) (img : File)
    (userPrompt : string) (trace : list Event) :
  generateVideoFromImage env fuel img userPrompt trace =
  let trace0 := trace ++ [EvProgress "Initializing video generation..."] in
  match fileToPart env img with
  | Throw e => Some (trace0, Throw e)
  | Return inlineData =>
      let trace1 := trace0 ++ [EvProgress "Sending request to the video model..."] in
      match generateVideos env userPrompt inlineData with
      | Throw e => Some (trace1, Throw e)
      | Return operation =>
          let trace2 :=
            trace1 ++ [EvProgress "AI is creating your video. This may take a few minutes..."] in
          match pollLoop env fuel operation 0 trace2 with
          | None => None
          | Some (trace3, Throw e) => Some (trace3, Throw e)
          | Some (trace3, Return polled) => collectVideo env polled.1 trace3
          end
      end
  end.
Proof.
  unfold generateVideoFromImage, bindT, emit, await. cbv zeta.
  destruct (fileToPart env img); [|done].
  destruct (generateVideos env userPrompt a); [|done].
  by destruct (pollLoop _ _ _ _ _) as [[? [?|?]]|].
Qed.

(** C5. Take an animation whose source file was read and whose request was
    accepted with [operation], run with a loop budget of at least 30.
    After its three opening messages, [generateVideoFromImage] makes a
    number of rounds, at most 30, counted from attempt 0; each round is a
    wait of 10 seconds, a progress message and then one status query,
    and the attempt counter counts the queries.  It makes no round when
    the operation is done at the start, and the rounds end with the
    operation done, with the counter at 30, or with what a status query
    threw.  If they end with the operation not done, 30 rounds and 5
    minutes of waiting have passed, the function throws the timeout error
    whose message names the 5 minutes, and the handler shows it and
    leaves the history as it was. *)
Theorem polling_bounded_then_times_out (env : Env) (fuel : nat) (img : File)
    (userPrompt : string) (inlineData : InlineData) (operation : GenAI.Operation) :
  (30 ≤ fuel)%nat →
  fileToPart env img = Return inlineData →
  generateVideos env userPrompt inlineData = Return operation →
  ∃ (rounds : nat) polled,
    Polls env operation 0 (pollRounds 0 rounds) polled ∧
    (rounds ≤ 30)%nat ∧
    (∀ attempts, pollRound attempts
                 = [EvSleep 10000; EvProgress (checkingProgress attempts);
                    EvStatusQuery attempts]) ∧
    timeSlept (pollRounds 0 rounds) = Z.of_nat rounds * 10000 ∧
    statusQueries (pollRounds 0 rounds) = Z.of_nat rounds ∧
    (GenAI.done operation = true → rounds = 0%nat) ∧
    match polled with
    | Throw e =>
        (1 ≤ rounds)%nat ∧
        generateVideoFromImage env fuel img userPrompt []
          = Some (videoPreamble ++ pollRounds 0 rounds, Throw e)
    | Return (operation', attempts) =>
        attempts = Z.of_nat rounds ∧
        (GenAI.done operation' = true ∨ attempts = 30) ∧
        generateVideoFromImage env fuel img userPrompt []
          = collectVideo env operation' (videoPreamble ++ pollRounds 0 rounds) ∧
        (GenAI.done operation' = false →
           rounds = 30%nat ∧
           timeSlept (pollRounds 0 rounds) = 5 * 60 * 1000 ∧
           carries "5 minutes" timeoutMessage ∧
           generateVideoFromImage env fuel img userPrompt []
             = Some (videoPreamble ++ pollRounds 0 30, Throw (ErrorObj timeoutMessage)) ∧
           ∀ s, currentImage s = Some img →
                dispatched (Animate userPrompt) s = true →
                ∃ s', handleGenerateVideo env fuel userPrompt s = Some s' ∧
                      history s' = history s ∧ historyIndex s' = historyIndex s ∧
                      error s' = Some ("Failed to generate the video. " +:+ timeoutMessage))
    end.
Proof.
  intros Hfuel Hpart Hstart.
  pose proof (generateVideoFromImage_unfold env fuel img userPrompt []) as Hgen.
  cbv zeta in Hgen. rewrite Hpart, Hstart in Hgen.
  change ((([] ++ [EvProgress "Initializing video generation..."])
             ++ [EvProgress "Sending request to the video model..."])
             ++ [EvProgress "AI is creating your video. This may take a few minutes..."])
    with videoPreamble in Hgen.
  destruct (pollLoop_runs env fuel operation 0 videoPreamble)
    as (trace & polled & Hrun & Hpolls); [unfold maxAttempts; lia|].
  destruct (Polls_shape env _ _ _ _ Hpolls) as (rounds & -> & Hle & Hshape);
    [unfold maxAttempts; lia|].
  unfold maxAttempts in Hle.
  destruct (timeSlept_pollRounds rounds 0) as [Hslept Hqueries].
  unfold pollInterval in Hslept.
  rewrite Hrun in Hgen.
  exists rounds, polled.
  split; [done|]. split; [lia|]. split; [done|]. split; [done|]. split; [done|].
  split.
  { intros Hdone. inversion Hpolls as [? ? ? Ht|? ? ? ? ? Hd|? ? ? Hd]; subst.
    - by destruct rounds.
    - congruence.
    - congruence. }
  destruct polled as [[operation' attempts]|e]; [|by split].
  destruct Hshape as (-> & Hend & _). unfold maxAttempts in Hend.
  split; [lia|]. split; [done|]. split; [done|].
  intros Hdone. destruct Hend as [Hend|Hend]; [congruence|].
  assert (rounds = 30%nat) as -> by lia.
  assert (Htimeout : generateVideoFromImage env fuel img userPrompt []
            = Some (videoPreamble ++ pollRounds 0 30, Throw (ErrorObj timeoutMessage))).
  { rewrite Hgen. cbn [fst]. unfold collectVideo. by rewrite Hdone. }
  split; [done|]. split; [rewrite Hslept; lia|].
  split; [by exists "Video generation timed out after ", "."|].
  split; [done|].
  intros s Himg Hguard. unfold dispatched in Hguard. rewrite Himg in Hguard.
  apply andb_true_iff in Hguard as [Hvideo%negb_true_iff Hprompt].
  unfold handleGenerateVideo. rewrite Himg, Hvideo, Hprompt, Htimeout. cbn [negb].
  eexists. split; [reflexivity|].
  pose proof (reportProgress_frame (videoPreamble ++ pollRounds 0 30)
                (s |> setIsLoading true |> setError None)) as (Hh & Hi & _).
  by repeat split.
Qed.

Lemma polling_bounded_then_times_out_witness :
  generateVideoFromImage sampleEnv 30 photo "a gentle breeze" []
    = Some (videoPreamble ++ pollRounds 0 30, Throw (ErrorObj timeoutMessage)) ∧
  timeSlept (pollRounds 0 30) = 300000 ∧
  ∃ s', handleGenerateVideo sampleEnv 30 "a gentle breeze" uploaded = Some s' ∧
        history s' = [photo] ∧
        error s' = Some "Failed to generate the video. Video generation timed out after 5 minutes.".
Proof.
  destruct (polling_bounded_then_times_out sampleEnv 30 photo "a gentle breeze"
              {| mimeType := "image/png"; data := "iVBORw==" |} pendingOperation
              (le_n 30) eq_refl eq_refl)
    as (rounds & polled & Hpolls & _ & _ & _ & _ & _ & Hend).
  destruct polled as [[operation' attempts]|e].
  - destruct Hend as (_ & _ & Hgen & Htimeout).
    assert (Hdone : GenAI.done operation' = false).
    { destruct (GenAI.done operation') eqn:Hd; [|reflexivity].
      exfalso. clear -Hpolls Hd.
      remember (pollRounds 0 rounds) as trace eqn:Ht. clear Ht.
      remember (Return (operation', attempts)) as r eqn:Hr.
      remember pendingOperation as op eqn:Hop.
      assert (Hnot : GenAI.done op = false) by (by subst op).
      clear Hop.
      induction Hpolls as [op a [Hstop|Hstop]|op a op' tr r Hd0 Hlt Hq Hrun IH|op a e0 Hd0 Hlt Hq].
      + injection Hr as -> ->. congruence.
      + injection Hr as -> ->. congruence.
      + apply IH; [done|]. cbn in Hq. injection Hq as <-. exact Hd0.
      + discriminate Hr. }
    destruct (Htimeout Hdone) as (_ & Hslept & _ & Hrun & Hhandler).
    split; [exact Hrun|]. split; [reflexivity|].
    destruct (Hhandler uploaded eq_refl eq_refl) as (s' & Hs' & Hh & _ & He).
    exists s'. split; [exact Hs'|]. split; [exact Hh|exact He].
  - exfalso. clear -Hpolls.
    remember (pollRounds 0 rounds) as trace eqn:Ht. clear Ht.
    remember (Throw e) as r eqn:Hr.
    generalize dependent e.
    induction Hpolls as [op a Hstop|op a op' tr r Hd0 Hlt Hq Hrun IH|op a e0 Hd0 Hlt Hq];
      intros e Hr.
    + discriminate Hr.
    + by eapply IH.
    + cbn in Hq. discriminate Hq.
Defined.

(** What [collectVideo] adds to the trace has no wait and no status
    query, and a file it returns is the video file of the downloaded
    bytes. *)
Lemma collectVideo_extends (env : Env) (operation : GenAI.Operation)
    (trace : list Event) :
  ∃ trace' r,
    collectVideo env operation trace = Some (trace ++ trace', r) ∧
    timeSlept trace' = 0 ∧ statusQueries trace' = 0 ∧
    ∀ f, r = Return f →
      GenAI.done operation = true ∧ GenAI.error operation = None ∧
      trace' = [EvProgress "Downloading generated video...";
                EvProgress "Video downloaded successfully!"] ∧
      ∃ link response videoBlob,
        downloadLinkOf operation = Some link ∧
        fetch env (link +:+ "&key=" +:+ API_KEY env) = Return response ∧
        ok response = true ∧ blob response = Return videoBlob ∧
        f = videoFile env videoBlob.
Proof.
  unfold collectVideo, throwT, bindT, emit, await, retT.
  destruct (downloadLinkOf_truthy operation) as [Htruthy Hlink].
  destruct (GenAI.done operation); cbn [negb];
    [|exists [], (Throw (ErrorObj "Video generation timed out after 5 minutes."));
      by rewrite app_nil_r].
  destruct (GenAI.error operation) as [err|];
    [eexists [], _; by rewrite app_nil_r|].
  rewrite Htruthy.
  destruct (downloadLinkOf operation) as [link|] eqn:Hl; cbn [bool_decide negb].
  2:{ rewrite bool_decide_eq_false_2 by (by intros []). cbn [negb].
      eexists [], _. by rewrite app_nil_r. }
  rewrite bool_decide_eq_true_2 by (by eexists). cbn [negb].
  rewrite (Hlink link eq_refl).
  destruct (fetch env _) as [response|e] eqn:Hfetch;
    [|by exists [EvProgress "Downloading generated video..."], (Throw e)].
  destruct (ok response) eqn:Hok; cbn [negb];
    [|by eexists [EvProgress "Downloading generated video..."], _].
  destruct (blob response) as [videoBlob|e] eqn:Hblob;
    [|by exists [EvProgress "Downloading generated video..."], (Throw e)].
  exists [EvProgress "Downloading generated video...";
          EvProgress "Video downloaded successfully!"], (Return (videoFile env videoBlob)).
  split; [by rewrite <- app_assoc|]. split; [done|]. split; [done|].
  intros f [= <-]. split; [done|]. split; [done|]. split; [done|].
  by exists link, response, videoBlob.
Qed.

(** X5. A finished operation yields a file exactly when it carries no error
    and a non-empty link, the download from that link (with the API key
    appended) answers OK and its body can be read; the file is then an
    MP4 video holding the downloaded bytes, and the two download messages
    are the only progress reported.  An operation that has both an error
    and a link therefore yields no file. *)
Theorem video_returned_exactly_when (env : Env) (operation : GenAI.Operation)
    (trace trace' : list Event) (f : File) :
  collectVideo env operation trace = Some (trace', Return f) ↔
  GenAI.done operation = true ∧ GenAI.error operation = None ∧
  ∃ link response videoBlob,
    downloadLinkOf operation = Some link ∧
    fetch env (link +:+ "&key=" +:+ API_KEY env) = Return response ∧
    ok response = true ∧ blob response = Return videoBlob ∧
    f = videoFile env videoBlob ∧
    trace' = trace ++ [EvProgress "Downloading generated video...";
                       EvProgress "Video downloaded successfully!"].
Proof.
  split.
  - intros Hrun.
    destruct (collectVideo_extends env operation trace) as (tr & r & Heq & _ & _ & Hret).
    rewrite Heq in Hrun. injection Hrun as <- ->.
    destruct (Hret f eq_refl) as (Hdone & Herr & -> & link & response & b & Hrest).
    split; [done|]. split; [done|]. exists link, response, b.
    destruct Hrest as (? & ? & ? & ? & ?). by repeat split.
  - intros (Hdone & Herr & link & response & b & Hl & Hfetch & Hok & Hblob & -> & ->).
    destruct (downloadLinkOf_truthy operation) as [Htruthy Hlink].
    unfold collectVideo, throwT, bindT, emit, await, retT.
    rewrite Hdone, Herr, Htruthy, (Hlink link Hl).
    rewrite bool_decide_eq_true_2 by (rewrite Hl; by eexists).
    cbn [negb]. rewrite Hfetch, Hok. cbn [negb]. rewrite Hblob.
    by rewrite <- app_assoc.
Qed.

Lemma pollLoop_fuel_mono (env : Env) (fuel : nat) :
  ∀ (operation : GenAI.Operation) (attempts : Z) (trace : list Event) res (fuel' : nat),
    pollLoop env fuel operation attempts trace = Some res →
    (fuel ≤ fuel')%nat →
    pollLoop env fuel' operation attempts trace = Some res.
Proof.
  induction fuel as [|fuel IH]; intros operation attempts trace res fuel' Hrun Hle.
  - cbn [pollLoop] in Hrun. destruct fuel'; cbn [pollLoop];
      destruct (negb (GenAI.done operation) && bool_decide (attempts < maxAttempts));
      done.
  - destruct fuel' as [|fuel']; [lia|]. cbn [pollLoop] in *.
    destruct (negb (GenAI.done operation) && bool_decide (attempts < maxAttempts));
      [|done].
    unfold bindT, emit, await in *.
    destruct (getVideosOperation env attempts operation); [|done].
    apply (IH _ _ _ _ fuel') in Hrun; [done|lia].
Qed.

(** X6. Whatever the service answers, an animation with a loop budget of 30
    or more ends; it makes at most 30 status queries, waits 10 seconds for
    each and so at most 5 minutes in all, reports
    "Initializing video generation..." first, and does the same for every
    budget of 30 or more. *)
Theorem animate_waits_at_most_five_minutes (env : Env) (fuel : nat)
    (img : File) (userPrompt : string) :
  (30 ≤ fuel)%nat →
  ∃ trace r,
    generateVideoFromImage env fuel img userPrompt [] = Some (trace, r) ∧
    generateVideoFromImage env 30 img userPrompt [] = Some (trace, r) ∧
    0 ≤ statusQueries trace ≤ 30 ∧
    timeSlept trace = statusQueries trace * 10000 ∧
    timeSlept trace ≤ 5 * 60 * 1000 ∧
    head trace = Some (EvProgress "Initializing video generation...").
Proof.
  intros Hfuel.
  assert (Hat30 : ∃ trace r,
            generateVideoFromImage env 30 img userPrompt [] = Some (trace, r) ∧
            0 ≤ statusQueries trace ≤ 30 ∧
            timeSlept trace = statusQueries trace * 10000 ∧
            head trace = Some (EvProgress "Initializing video generation...")).
  { rewrite generateVideoFromImage_unfold. cbv zeta.
    destruct (fileToPart env img) as [inlineData|e]; [|by eexists _, _].
    destruct (generateVideos env userPrompt inlineData) as [operation|e];
      [|by eexists _, _].
    match goal with |- context [pollLoop env 30 operation 0 ?t] => set (trace2 := t) end.
    destruct (pollLoop_runs env 30 operation 0 trace2) as (tr & r & Hrun & Hpolls);
      [unfold maxAttempts; lia|].
    destruct (Polls_shape env _ _ _ _ Hpolls) as (rounds & -> & Hle & _);
      [unfold maxAttempts; lia|].
    unfold maxAttempts in Hle.
    destruct (timeSlept_pollRounds rounds 0) as [Hslept Hqueries].
    unfold pollInterval in Hslept.
    assert (Hacc : timeSlept (trace2 ++ pollRounds 0 rounds) = Z.of_nat rounds * 10000 ∧
                   statusQueries (trace2 ++ pollRounds 0 rounds) = Z.of_nat rounds).
    { destruct (timeSlept_app trace2 (pollRounds 0 rounds)) as [-> ->].
      rewrite Hslept, Hqueries. subst trace2. cbn. lia. }
    rewrite Hrun. destruct r as [[operation' attempts]|e].
    - cbn [fst].
      destruct (collectVideo_extends env operation' (trace2 ++ pollRounds 0 rounds))
        as (tr' & r' & -> & Hs' & Hq' & _).
      exists ((trace2 ++ pollRounds 0 rounds) ++ tr'), r'.
      destruct (timeSlept_app (trace2 ++ pollRounds 0 rounds) tr') as [-> ->].
      destruct Hacc as [-> ->]. rewrite Hs', Hq'.
      split; [done|]. split; [lia|]. split; [lia|]. by subst trace2.
    - exists (trace2 ++ pollRounds 0 rounds), (Throw e).
      destruct Hacc as [-> ->].
      split; [done|]. split; [lia|]. split; [lia|]. by subst trace2. }
  destruct Hat30 as (trace & r & Hrun & Hq & Hs & Hhead).
  exists trace, r. split; [|split; [done|]]; [|split; [done|]; split; [done|]; split; [lia|done]].
  rewrite generateVideoFromImage_unfold in *. cbv zeta in *.
  destruct (fileToPart env img) as [inlineData|e]; [|done].
  destruct (generateVideos env userPrompt inlineData) as [operation|e]; [|done].
  destruct (pollLoop env 30 operation 0 _) as [res|] eqn:Hpoll; [|done].
  by rewrite (pollLoop_fuel_mono env 30 _ _ _ _ fuel Hpoll Hfuel).
Qed.

Lemma animate_waits_at_most_five_minutes_witness :
  ∃ trace r,
    generateVideoFromImage videoEnv 45 photo "a gentle breeze" [] = Some (trace, r) ∧
    0 ≤ statusQueries trace ≤ 30 ∧ timeSlept trace ≤ 5 * 60 * 1000.
Proof.
  destruct (animate_waits_at_most_five_minutes videoEnv 45 photo "a gentle breeze")
    as (trace & r & Hrun & _ & Hq & _ & Hs & _); [repeat constructor|].
  exists trace, r. split; [exact Hrun|]. split; [exact Hq|exact Hs].
Defined.

(** ** Requests that are not dispatched, and those that are *)

(** X7. A request whose guards fail sends nothing: the resulting state is the
    same for every service and loop budget, the history is untouched, an
    error is shown, and the busy flag and loading message stay as they
    were. *)
Theorem undispatched_request_sends_nothing (req : OperationRequest) (s : AppState) :
  dispatched req s = false →
  ∃ s', (∀ env fuel, perform env fuel req s = Some s') ∧
        history s' = history s ∧ historyIndex s' = historyIndex s ∧
        is_Some (error s') ∧
        isLoading s' = isLoading s ∧ loadingMessage s' = loadingMessage s.
Proof.
  unfold dispatched. intros Hguard.
  destruct req; cbn [perform];
    unfold handleGenerate, handleApplyFilter, handleApplyAdjustment,
      handleGenerate3DView, handleRemoveBackground, handleRestorePhoto,
      handleGroupRestorePhoto, handleGenerateVideo;
    destruct (currentImage s) as [img|];
    try (cbn [negb andb]; eexists; split; [intros; reflexivity|by repeat split; eauto]);
    destruct (isCurrentItemVideo s); cbn [negb andb] in Hguard;
    try discriminate Hguard;
    try (cbn [negb andb]; eexists; split; [intros; reflexivity|by repeat split; eauto]).
  - destruct (truthyStr (trim (prompt s))); cbn [negb andb] in Hguard;
      [|cbn [negb andb]; eexists; split; [intros; reflexivity|by repeat split; eauto]].
    destruct (editHotspot s); [discriminate|].
    cbn [negb andb]; eexists; split; [intros; reflexivity|by repeat split; eauto].
  - rewrite Hguard. cbn [negb].
    cbn [negb andb]; eexists; split; [intros; reflexivity|by repeat split; eauto].
Qed.

Lemma undispatched_request_sends_nothing_witness :
  ∃ s', (∀ env fuel, perform env fuel (Animate "   ") uploaded = Some s') ∧
        history s' = [photo] ∧ is_Some (error s').
Proof.
  destruct (undispatched_request_sends_nothing (Animate "   ") uploaded eq_refl)
    as (s' & Hp & Hh & _ & He & _).
  exists s'. split; [exact Hp|]. split; [exact Hh|exact He].
Defined.

(** The end of a handler whose gateway call and conversion gave [f], and
    of one whose attempt threw. *)
Ltac handler_ended f :=
  split; [reflexivity|]; left; exists f;
  split; [reflexivity|]; split; [reflexivity|];
  split; [apply (currentImage_addImageToHistory f)|reflexivity].

Ltac handler_failed :=
  split; [reflexivity|]; right;
  split; [reflexivity|]; split; [reflexivity|]; by eexists.

(** X8. A dispatched request ends in one of two ways, and with the busy flag
    down in both: either one file was appended, it is the current image
    and no error is shown; or entries and cursor are as before and the
    error shown starts with the failure text of the operation. *)
Theorem dispatched_request_appends_or_reports (env : Env) (fuel : nat)
    (req : OperationRequest) (s s' : AppState) :
  dispatched req s = true →
  perform env fuel req s = Some s' →
  isLoading s' = false ∧
  ((∃ f, history s' = history (addImageToHistory f s) ∧
         historyIndex s' = historyIndex (addImageToHistory f s) ∧
         currentImage s' = Some f ∧ error s' = None) ∨
   (history s' = history s ∧ historyIndex s' = historyIndex s ∧
    ∃ message, error s' = Some (failurePrefix req +:+ message))).
Proof.
  unfold dispatched. intros Hguard Hp.
  destruct (currentImage s) as [img|] eqn:Himg; [|discriminate].
  destruct (isCurrentItemVideo s) eqn:Hvideo; [discriminate|]. cbn [negb andb] in Hguard.
  destruct req; cbn [perform failurePrefix] in *;
    unfold handleGenerate, handleApplyFilter, handleApplyAdjustment,
      handleGenerate3DView, handleRemoveBackground, handleRestorePhoto,
      handleGroupRestorePhoto, handleGenerateVideo in Hp;
    rewrite Himg, Hvideo in Hp.
  - apply andb_true_iff in Hguard as [Hprompt Hh]. rewrite Hprompt in Hp.
    destruct (editHotspot s) as [h|]; [|discriminate]. cbn [negb] in Hp.
    destruct (generateEditedImage env img (prompt s) h) as [url|e];
      cbn [bindO] in Hp; [|injection Hp as <-; handler_failed].
    destruct (dataURLtoFile env url _) as [f|e]; injection Hp as <-;
      [handler_ended f|handler_failed].
  - destruct (generateFilteredImage env img filterPrompt) as [url|e];
      cbn [bindO] in Hp; [|injection Hp as <-; handler_failed].
    destruct (dataURLtoFile env url _) as [f|e]; injection Hp as <-;
      [handler_ended f|handler_failed].
  - destruct (generateAdjustedImage env img adjustmentPrompt) as [url|e];
      cbn [bindO] in Hp; [|injection Hp as <-; handler_failed].
    destruct (dataURLtoFile env url _) as [f|e]; injection Hp as <-;
      [handler_ended f|handler_failed].
  - destruct (generate3DView env img) as [url|e];
      cbn [bindO] in Hp; [|injection Hp as <-; handler_failed].
    destruct (dataURLtoFile env url _) as [f|e]; injection Hp as <-;
      [handler_ended f|handler_failed].
  - destruct (removeBackground env img) as [url|e];
      cbn [bindO] in Hp; [|injection Hp as <-; handler_failed].
    destruct (dataURLtoFile env url _) as [f|e]; injection Hp as <-;
      [handler_ended f|handler_failed].
  - destruct (restorePhoto env img) as [url|e];
      cbn [bindO] in Hp; [|injection Hp as <-; handler_failed].
    destruct (dataURLtoFile env url _) as [f|e]; injection Hp as <-;
      [handler_ended f|handler_failed].
  - destruct (groupRestorePhoto env img) as [url|e];
      cbn [bindO] in Hp; [|injection Hp as <-; handler_failed].
    destruct (dataURLtoFile env url _) as [f|e]; injection Hp as <-;
      [handler_ended f|handler_failed].
  - rewrite Hguard in Hp. cbn [negb] in Hp.
    destruct (generateVideoFromImage env fuel img prompt0 []) as [[tr [f|e]]|];
      [| |discriminate Hp]; injection Hp as <-;
      pose proof (reportProgress_frame tr
                    (s |> setIsLoading true |> setError None)) as (Hh & Hi & He & _).
    + split; [reflexivity|]. left. exists f.
      split; [cbn in *; by rewrite Hh, Hi|].
      split; [cbn in *; by rewrite Hh, Hi|].
      split; [apply (currentImage_addImageToHistory f)|exact He].
    + split; [reflexivity|]. right.
      split; [exact Hh|]. split; [exact Hi|]. by eexists.
Qed.

Lemma dispatched_request_appends_or_reports_witness :
  isLoading (handleApplyFilter sampleEnv "vintage" uploaded) = false ∧
  isLoading (handleApplyFilter (serviceWith (Return blockedResponse)) "vintage" uploaded)
    = false.
Proof.
  split.
  - exact (proj1 (dispatched_request_appends_or_reports sampleEnv 0 (Filter "vintage")
                    uploaded _ eq_refl eq_refl)).
  - exact (proj1 (dispatched_request_appends_or_reports
                    (serviceWith (Return blockedResponse)) 0 (Filter "vintage")
                    uploaded _ eq_refl eq_refl)).
Defined.

(** ** Whole sessions *)

Lemma rooted_transfer (original : File) (s s' : AppState) :
  rooted original s →
  history s' = history s → historyIndex s' = historyIndex s →
  rooted original s'.
Proof. unfold rooted. by intros ? -> ->. Qed.

Lemma rooted_perform (original : File) (env : Env) (fuel : nat)
    (req : OperationRequest) (s s' : AppState) :
  rooted original s → perform env fuel req s = Some s' → rooted original s'.
Proof.
  intros Hs Hp.
  destruct (perform_appends_only_on_success _ _ _ _ _ Hp)
    as [[Hh Hi]|(img & tr & r & f & _ & _ & Hh & Hi)].
  - by apply (rooted_transfer original s).
  - apply (rooted_transfer original (addImageToHistory f s)); [|done..].
    by apply rooted_append.
Qed.

Lemma rooted_crop (original : File) (env : Env) (s s' : AppState) :
  rooted original s → handleApplyCrop env s = Return s' → rooted original s'.
Proof.
  intros Hs. unfold handleApplyCrop.
  destruct (completedCrop s); [|by intros [= <-]].
  destruct (imgRefCurrent env); cbn [negb]; [|by intros [= <-]].
  destruct (canvasContext env); cbn [negb]; [|by intros [= <-]].
  destruct (dataURLtoFile _ _ _) as [f|e]; cbn [bindO]; [|done].
  intros [= <-]. by apply rooted_append.
Qed.

Lemma rooted_reset (original : File) (s : AppState) :
  rooted original s → rooted original (handleReset s).
Proof.
  intros [Hidx H0]. unfold handleReset. case_bool_decide; [|done].
  split; cbn; [lia|done].
Qed.

Lemma rooted_act (original : File) (a : Action) (s s' : AppState) :
  rooted original s → act s a = Some s' → rooted original s'.
Proof.
  intros Hs. destruct a; cbn [act].
  - by apply rooted_perform.
  - destruct (handleApplyCrop env s) as [t|e] eqn:Hc; intros [= <-]; [|done].
    by eapply rooted_crop.
  - intros [= <-]. by apply rooted_undo.
  - intros [= <-]. by apply rooted_redo.
  - intros [= <-]. by apply rooted_reset.
Qed.

Lemma generateVideoFromImage_ends (env : Env) (fuel : nat) (img : File)
    (userPrompt : string) :
  (30 ≤ fuel)%nat → is_Some (generateVideoFromImage env fuel img userPrompt []).
Proof.
  intros Hfuel. rewrite generateVideoFromImage_unfold. cbv zeta.
  destruct (fileToPart env img) as [inlineData|e]; [|by eexists].
  destruct (generateVideos env userPrompt inlineData) as [operation|e]; [|by eexists].
  match goal with |- context [pollLoop env fuel operation 0 ?t] =>
    destruct (pollLoop_runs env fuel operation 0 t) as (tr & r & -> & _)
  end; [unfold maxAttempts; lia|].
  destruct r as [[operation' attempts]|e]; [|by eexists].
  cbn [fst].
  match goal with |- context [collectVideo env operation' ?t] =>
    destruct (collectVideo_extends env operation' t) as (tr' & r' & -> & _)
  end.
  by eexists.
Qed.

Lemma act_ends (a : Action) (s : AppState) : fuelled a → is_Some (act s a).
Proof.
  destruct a; cbn [act fuelled]; try (intros _; by eexists).
  - intros Hfuel. destruct req; cbn [perform]; try by eexists.
    unfold handleGenerateVideo.
    destruct (currentImage s) as [img|]; [|by eexists].
    destruct (isCurrentItemVideo s); [by eexists|].
    destruct (negb _); [by eexists|].
    destruct (generateVideoFromImage_ends env fuel img prompt0 Hfuel) as [[tr [f|e]] ->];
      by eexists.
  - intros _. destruct (handleApplyCrop env s); by eexists.
Qed.

(** X9. Whatever the user does after an upload (operations, crops, undo,
    redo, reset, in any order and with any service behind them), the
    session goes on, the cursor points at an entry, so there always is a
    current image, and entry 0 is still the uploaded file. *)
Theorem session_keeps_history_rooted
    (original : File) (s0 : AppState) (actions : list Action) :
  let start := handleImageUpload original s0 in
  (Forall fuelled actions → is_Some (session actions start)) ∧
  (∀ s, session actions start = Some s →
        0 ≤ historyIndex s < Z.of_nat (length (history s)) ∧
        is_Some (currentImage s) ∧
        originalImage s = Some original).
Proof.
  intros start.
  assert (Hstart : rooted original start) by apply rooted_upload.
  clearbody start. revert start Hstart.
  induction actions as [|a actions IH]; intros start Hstart.
  - split; [by eexists|]. intros s [= <-].
    split; [apply Hstart|]. split; [by eapply rooted_currentImage|].
    by apply rooted_originalImage.
  - cbn [session]. split.
    + intros [Ha Hrest]%Forall_cons.
      destruct (act_ends a start Ha) as [s1 Hs1]. rewrite Hs1.
      apply (IH s1); [by eapply rooted_act|done].
    + intros s. destruct (act start a) as [s1|] eqn:Hs1; [|done].
      apply (IH s1). by eapply rooted_act.
Qed.

Lemma session_keeps_history_rooted_witness :
  ∃ s, session [DoOperation sampleEnv 30 (Filter "vintage"); DoUndo;
                DoOperation videoEnv 30 (Animate "a gentle breeze"); DoCrop sampleEnv;
                DoReset; DoRedo] (handleImageUpload photo initialState) = Some s ∧
       originalImage s = Some photo ∧ is_Some (currentImage s).
Proof.
  destruct (session_keeps_history_rooted photo initialState
              [DoOperation sampleEnv 30 (Filter "vintage"); DoUndo;
               DoOperation videoEnv 30 (Animate "a gentle breeze"); DoCrop sampleEnv;
               DoReset; DoRedo]) as [Hends Hinv].
  destruct Hends as [s Hs].
  { repeat constructor. }
  exists s. split; [exact Hs|].
  destruct (Hinv s Hs) as (_ & Hc & Ho). split; [exact Ho|exact Hc].
Defined.

(** ** After a successful animation *)

Lemma currentImage_in_range (s : AppState) (img : File) :
  currentImage s = Some img → 0 ≤ historyIndex s < Z.of_nat (length (history s)).
Proof.
  unfold currentImage, jsIndex. case_decide; [done|].
  intros Hl%lookup_lt_Some. lia.
Qed.

Lemma undo_after_append (f : File) (s t : AppState) :
  0 ≤ historyIndex s < Z.of_nat (length (history s)) →
  history t = history (addImageToHistory f s) →
  historyIndex t = historyIndex (addImageToHistory f s) →
  currentImage (handleUndo t) = currentImage s.
Proof.
  intros Hidx Hh Hi.
  rewrite addImageToHistory_history in Hh by lia.
  rewrite addImageToHistory_index, addImageToHistory_history in Hi by lia.
  rewrite length_app, length_take in Hi. cbn [length] in Hi.
  unfold handleUndo, canUndo. rewrite bool_decide_eq_true_2 by lia.
  unfold currentImage, jsIndex.
  cbn [history historyIndex setHistoryIndex setEditHotspot setDisplayHotspot].
  rewrite Hh, Hi. repeat case_decide; try lia.
  rewrite lookup_app_l by (rewrite length_take; lia).
  rewrite lookup_take_lt by lia. f_equal. lia.
Qed.

(** X10. When the animation succeeds, the current item is an MP4 video: the
    animate prompt is emptied, every operation request is then refused by
    its guard, and one undo shows the source image again. *)
Theorem animation_result_is_a_video (env : Env) (fuel : nat) (userPrompt : string)
    (s : AppState) (img : File) (trace : list Event) (f : File) :
  currentImage s = Some img →
  dispatched (Animate userPrompt) s = true →
  generateVideoFromImage env fuel img userPrompt [] = Some (trace, Return f) →
  ∃ s', handleGenerateVideo env fuel userPrompt s = Some s' ∧
        currentImage s' = Some f ∧
        type f = "video/mp4" ∧ name f = resultName (Animate userPrompt) env ∧
        isCurrentItemVideo s' = true ∧
        (∀ req, dispatched req s' = false) ∧
        animatePrompt s' = "" ∧ error s' = None ∧
        currentImage (handleUndo s') = Some img ∧
        isCurrentItemVideo (handleUndo s') = isCurrentItemVideo s.
Proof.
  intros Himg Hguard Hgen.
  assert (Hf : ∃ b, f = videoFile env b).
  { rewrite generateVideoFromImage_unfold in Hgen. cbv zeta in Hgen.
    destruct (fileToPart env img); [|done].
    destruct (generateVideos env userPrompt a); [|done].
    destruct (pollLoop _ _ _ _ _) as [[tr [[op n]|e]]|]; [|done..].
    cbn [fst] in Hgen.
    destruct (collectVideo_extends env op tr) as (tr' & r & Hc & _ & _ & Hret).
    rewrite Hc in Hgen. injection Hgen as _ ->.
    destruct (Hret f eq_refl) as (_ & _ & _ & _ & _ & b & _ & _ & _ & _ & ->).
    by exists b. }
  destruct Hf as [b ->].
  unfold dispatched in Hguard. rewrite Himg in Hguard.
  apply andb_true_iff in Hguard as [Hvideo%negb_true_iff Hprompt].
  pose proof (currentImage_in_range s img Himg) as Hidx.
  unfold handleGenerateVideo. rewrite Himg, Hvideo, Hprompt, Hgen. cbn [negb].
  eexists. split; [reflexivity|].
  match goal with |- currentImage ?t = _ ∧ _ => set (s' := t) end.
  pose proof (reportProgress_frame trace (s |> setIsLoading true |> setError None))
    as (Hh & Hi & He & _).
  assert (Hcur : currentImage s' = Some (videoFile env b))
    by apply (currentImage_addImageToHistory (videoFile env b)).
  assert (Hvid : isCurrentItemVideo s' = true)
    by (unfold isCurrentItemVideo; by rewrite Hcur).
  assert (Hundo : currentImage (handleUndo s') = currentImage s).
  { apply (undo_after_append (videoFile env b)); [done|..]; subst s'; cbn in *;
      by rewrite Hh, Hi. }
  split; [done|]. split; [done|]. split; [done|]. split; [done|].
  split; [intros req; unfold dispatched; by rewrite Hcur, Hvid|].
  split; [done|]. split; [exact He|]. split; [by rewrite Hundo|].
  unfold isCurrentItemVideo. by rewrite Hundo.
Qed.

Lemma animation_result_is_a_video_witness :
  ∃ s', handleGenerateVideo videoEnv 30 "a gentle breeze" uploaded = Some s' ∧
        (type <$> currentImage s') = Some "video/mp4" ∧
        (bytes <$> currentImage s') = Some [0; 0; 0; 24] ∧
        dispatched (Filter "vintage") s' = false ∧
        currentImage (handleUndo s') = Some photo.
Proof.
  destruct (animation_result_is_a_video videoEnv 30 "a gentle breeze" uploaded photo
              _ _ eq_refl eq_refl ltac:(vm_compute; reflexivity))
    as (s' & Hs' & Hcur & _ & _ & _ & Hno & _ & _ & Hundo & _).
  exists s'. split; [exact Hs'|]. rewrite Hcur.
  split; [reflexivity|]. split; [reflexivity|]. split; [exact (Hno _)|exact Hundo].
Defined.

(** ** Data URLs, read and written *)

Lemma parse_dataUrlOf (mime data : string) :
  plainMime mime = true → occursIn ","%char data = false →
  split ","%char (dataUrlOf mime data) = ["data:" +:+ mime +:+ ";base64"; data] ∧
  matchMime ("data:" +:+ mime +:+ ";base64") = Some mime ∧
  truthyStr mime = true.
Proof.
  intros (Hne & Hcomma & Hsemi & Hlf & Hcr)%plainMime_spec Hdata.
  split; [|split; [|done]].
  - unfold dataUrlOf.
    replace ("data:" +:+ mime +:+ ";base64," +:+ data)
      with (("data:" +:+ mime +:+ ";base64") +:+ String ","%char data)
      by (rewrite !append_assoc; reflexivity).
    rewrite split_at_separator by (rewrite !occursIn_append, Hcomma; reflexivity).
    by rewrite (split_without_separator _ _ Hdata).
  - rewrite !append_String, append_empty. cbn [matchMime].
    repeat (destruct (decide _) as [|_]; [discriminate|]).
    destruct (decide _) as [_|]; [|done].
    by rewrite lazyUntilSemicolon_append.
Qed.

(** X11. [fileToPart] takes a well-formed data URL apart into exactly the MIME
    type and the base64 text it was made of. *)
Theorem fileToPart_reads_what_the_url_holds (env : Env) (file : File)
    (mime data : string) :
  readAsDataURL env file = Return (dataUrlOf mime data) →
  plainMime mime = true → occursIn ","%char data = false →
  fileToPart env file = Return {| mimeType := mime; data := data |}.
Proof.
  intros Hread Hmime Hdata.
  destruct (parse_dataUrlOf mime data Hmime Hdata) as (Hsplit & Hmatch & Hne).
  unfold fileToPart. rewrite Hread. cbn [bindO]. by rewrite Hsplit, Hmatch, Hne.
Qed.

Lemma fileToPart_reads_what_the_url_holds_witness :
  fileToPart sampleEnv photo = Return {| mimeType := "image/png"; data := "iVBORw==" |}.
Proof.
  exact (fileToPart_reads_what_the_url_holds sampleEnv photo "image/png" "iVBORw=="
           eq_refl eq_refl eq_refl).
Defined.

(** X12. The two parsers of data URLs agree.  On the URL that the reader gave
    for a file, [dataURLtoFile] throws what [fileToPart] throws; and when
    [fileToPart] gives a part, [dataURLtoFile] gives a file whose bytes
    are the decoding of the data of that part and whose type is the MIME
    type of that part as the [File] constructor normalises it, or throws
    what [atob] throws on the data. *)
Theorem fileToPart_agrees_with_dataURLtoFile (env : Env) (file : File)
    (url filename : string) :
  readAsDataURL env file = Return url →
  match fileToPart env file with
  | Return part =>
      dataURLtoFile env url filename
        = bindO (atob env (data part))
            (λ bstr, Return {| name := filename;
                               type := normalizeType (mimeType part);
                               bytes := charCodes bstr |})
  | Throw e => dataURLtoFile env url filename = Throw e
  end.
Proof.
  intros Hread. unfold fileToPart, dataURLtoFile. rewrite Hread. cbn [bindO].
  destruct (split ","%char url) as [|arr0 [|arr1 rest]]; [done..|].
  destruct (matchMime arr0) as [mime|]; [|done].
  destruct (truthyStr mime); [|done].
  cbn [data mimeType]. destruct (atob env arr1) as [bstr|e]; cbn [bindO]; [|done].
  by rewrite fillU8_all.
Qed.

Lemma fileToPart_agrees_with_dataURLtoFile_witness :
  dataURLtoFile sampleEnv "data:image/png;base64,iVBORw==" "copy.png"
    = Return {| name := "copy.png"; type := "image/png"; bytes := [137; 80; 78; 71] |} ∧
  dataURLtoFile
    (mkEnv "key" 0 "Invalid character" true true (λ _, "")
       (λ _, Return "data:IMAGE/PNG;base64,iVBORw==")
       (λ _ _, Throw NonError) (λ _ _, Throw NonError) (λ _ _, Throw NonError)
       (λ _, Throw NonError))
    "data:IMAGE/PNG;base64,iVBORw==" "copy.png"
    = Return {| name := "copy.png"; type := "image/png"; bytes := [137; 80; 78; 71] |}.
Proof.
  split.
  - exact (fileToPart_agrees_with_dataURLtoFile sampleEnv photo
             "data:image/png;base64,iVBORw==" "copy.png" eq_refl).
  - exact (fileToPart_agrees_with_dataURLtoFile
             (mkEnv "key" 0 "Invalid character" true true (λ _, "")
                (λ _, Return "data:IMAGE/PNG;base64,iVBORw==")
                (λ _ _, Throw NonError) (λ _ _, Throw NonError) (λ _ _, Throw NonError)
                (λ _, Throw NonError))
             photo "data:IMAGE/PNG;base64,iVBORw==" "copy.png" eq_refl).
Defined.

Lemma lazyUntilSemicolon_clean (s : string) :
  ∀ g, lazyUntilSemicolon s = Some g →
       occursIn ";"%char g = false ∧
       occursIn "010"%char g = false ∧ occursIn "013"%char g = false.
Proof.
  induction s as [|c s IH]; intros g; cbn [lazyUntilSemicolon]; [done|].
  destruct (decide (c = ";"%char)) as [|Hc]; [by intros [= <-]|].
  unfold isLineTerminator.
  destruct (bool_decide (c = "010"%char)) eqn:Hlf; [done|].
  destruct (bool_decide (c = "013"%char)) eqn:Hcr; [done|]. cbn [orb].
  destruct (lazyUntilSemicolon s) as [g'|]; [|done]. intros [= <-].
  destruct (IH g' eq_refl) as (H1 & H2 & H3). cbn [occursIn].
  rewrite H1, H2, H3, Hlf, Hcr. by rewrite bool_decide_eq_false_2.
Qed.

Lemma matchMime_clean (s : string) :
  ∀ g, matchMime s = Some g →
       occursIn ";"%char g = false ∧
       occursIn "010"%char g = false ∧ occursIn "013"%char g = false.
Proof.
  induction s as [|c s IH]; intros g; cbn [matchMime]; [done|].
  destruct (decide (c = ":"%char)) as [|_]; [|apply IH].
  destruct (lazyUntilSemicolon s) as [g'|] eqn:Hl; [|apply IH].
  intros [= <-]. by apply (lazyUntilSemicolon_clean s).
Qed.

Lemma charCodes_are_bytes (s : string) : Forall (λ b, 0 ≤ b < 256) (charCodes s).
Proof.
  induction s as [|c s IH]; cbn [charCodes]; constructor; [|done].
  pose proof (N_ascii_bounded c). lia.
Qed.

Lemma normal_type_lacks (t : string) (c : ascii) :
  isNormalType t = true → isPrintableAscii c = false → occursIn c t = false.
Proof.
  unfold isNormalType. intros Hn Hc.
  induction t as [|a t IH]; [done|]. cbn [allChars occursIn] in *.
  apply andb_true_iff in Hn as [[Ha _]%andb_true_iff Ht].
  rewrite IH by done. rewrite bool_decide_eq_false_2; [done|]. intros ->. congruence.
Qed.

(** X13. Every file that [dataURLtoFile] makes carries the given name, a type
    as the [File] constructor leaves it (printable ASCII without
    upper-case letters, possibly empty) with no semicolon or line break
    in it, and a content of bytes (each between 0 and 255); and it is
    made only of a URL that has a comma. *)
Theorem dataURLtoFile_makes_wellformed_files (env : Env) (url filename : string)
    (f : File) :
  dataURLtoFile env url filename = Return f →
  name f = filename ∧
  isNormalType (type f) = true ∧ occursIn ";"%char (type f) = false ∧
  occursIn "010"%char (type f) = false ∧ occursIn "013"%char (type f) = false ∧
  Forall (λ b, 0 ≤ b < 256) (bytes f) ∧
  occursIn ","%char url = true.
Proof.
  unfold dataURLtoFile. intros Hf.
  assert (Hcomma : occursIn ","%char url = true).
  { destruct (occursIn ","%char url) eqn:Hc; [done|].
    by rewrite (split_without_separator _ _ Hc) in Hf. }
  destruct (split ","%char url) as [|arr0 [|arr1 rest]]; [done..|].
  destruct (matchMime arr0) as [mime|] eqn:Hm; [|done].
  destruct (truthyStr mime) eqn:Ht; [|done].
  destruct (atob env arr1) as [bstr|e]; cbn [bindO] in Hf; [|done].
  injection Hf as <-. cbn [newFile name type bytes]. rewrite fillU8_all.
  destruct (matchMime_clean _ _ Hm) as (H1 & _ & _).
  pose proof (normalizeType_normal mime) as Hn.
  split; [done|]. split; [done|].
  split; [by apply normalizeType_no_semicolon|].
  split; [by apply normal_type_lacks|]. split; [by apply normal_type_lacks|].
  split; [apply charCodes_are_bytes|done].
Qed.

Lemma dataURLtoFile_makes_wellformed_files_witness :
  (∃ f, dataURLtoFile sampleEnv "data:IMAGE/PNG;q=1;base64,iVBORw==" "copy.png" = Return f ∧
        type f = "image/png" ∧ isNormalType (type f) = true ∧
        Forall (λ b, 0 ≤ b < 256) (bytes f)) ∧
  (∃ f, dataURLtoFile sampleEnv ("data:image/p" +:+ String "241"%char "g;base64,aGk=")
          "copy.png" = Return f ∧
        type f = "" ∧ isNormalType (type f) = true).
Proof.
  split.
  - eexists. split; [vm_compute; reflexivity|]. split; [reflexivity|].
    destruct (dataURLtoFile_makes_wellformed_files sampleEnv
                "data:IMAGE/PNG;q=1;base64,iVBORw==" "copy.png" _
                ltac:(vm_compute; reflexivity)) as (_ & Hn & _ & _ & _ & Hb & _).
    split; [exact Hn|exact Hb].
  - eexists. split; [vm_compute; reflexivity|]. split; [reflexivity|].
    exact (proj1 (proj2 (dataURLtoFile_makes_wellformed_files sampleEnv
                           ("data:image/p" +:+ String "241"%char "g;base64,aGk=")
                           "copy.png" _ ltac:(vm_compute; reflexivity)))).
Defined.

Lemma split_never_empty (c : ascii) (s : string) : ∃ h t, split c s = h :: t.
Proof.
  induction s as [|a s (h & t & IH)]; cbn [split]; [by eexists _, _|].
  destruct (decide (a = c)); [by eexists _, _|]. rewrite IH. by eexists _, _.
Qed.

(** X14. What [dataURLtoFile] refuses: a string without a comma is an invalid
    data URL; one whose part before the first comma has no semicolon has
    no MIME type that could be parsed; whatever it throws is an [Error]. *)
Theorem dataURLtoFile_refusals (env : Env) (url filename : string) :
  (occursIn ","%char url = false →
     dataURLtoFile env url filename = Throw (ErrorObj "Invalid data URL")) ∧
  (∀ head rest,
     occursIn ","%char head = false → occursIn ";"%char head = false →
     dataURLtoFile env (head +:+ String ","%char rest) filename
       = Throw (ErrorObj "Could not parse MIME type from data URL")) ∧
  (∀ e, dataURLtoFile env url filename = Throw e → isErrorObj e).
Proof.
  split; [|split].
  - intros Hc. unfold dataURLtoFile. by rewrite (split_without_separator _ _ Hc).
  - intros head rest Hc Hs. unfold dataURLtoFile.
    rewrite (split_at_separator _ _ _ Hc).
    assert (matchMime head = None) as ->.
    { clear Hc. induction head as [|c head IH]; [done|]. cbn [matchMime occursIn] in *.
      apply orb_false_iff in Hs as [Hc Hs].
      assert (Hl : lazyUntilSemicolon head = None).
      { clear IH. induction head as [|d head IH]; [done|].
        cbn [lazyUntilSemicolon occursIn] in *.
        apply orb_false_iff in Hs as [Hd Hs]. apply bool_decide_eq_false in Hd.
        destruct (decide (d = ";"%char)); [done|].
        destruct (isLineTerminator d); [done|]. by rewrite IH. }
      rewrite Hl, IH by done. by destruct (decide _). }
    by destruct (split_never_empty ","%char rest) as (h & t & ->).
  - intros e. unfold dataURLtoFile.
    destruct (split ","%char url) as [|arr0 [|arr1 more]]; try by intros [= <-].
    destruct (matchMime arr0) as [mime|]; [|by intros [= <-]].
    destruct (truthyStr mime); [|by intros [= <-]].
    unfold atob.
    repeat (case_match; cbn [bindO]; try by intros [= <-]); done.
Qed.

Lemma dataURLtoFile_refusals_witness :
  dataURLtoFile sampleEnv "not a data URL" "x.png" = Throw (ErrorObj "Invalid data URL") ∧
  dataURLtoFile sampleEnv "data:,AAAA" "x.png"
    = Throw (ErrorObj "Could not parse MIME type from data URL").
Proof.
  split.
  - exact (proj1 (dataURLtoFile_refusals sampleEnv "not a data URL" "x.png") eq_refl).
  - exact (proj1 (proj2 (dataURLtoFile_refusals sampleEnv "" "x.png"))
             "data:" "AAAA" eq_refl eq_refl).
Defined.

(** ** When a response is a success *)

(** X15. [handleApiResponse] returns exactly when the response is not blocked
    and has an inline payload, and then returns the data URL of that
    payload whatever the context; everything it throws is an [Error].
    A blocked response is refused even if it carries an image. *)
Theorem response_succeeds_exactly_when
    (response : GenAI.GenerateContentResponse) (context url : string) :
  (handleApiResponse response context = Return url ↔
   blockReasonOf response = None ∧
   ∃ payload, inlinePayloadOf response = Some payload ∧
              url = "data:" +:+ jsStr (GenAI.mimeType payload) +:+ ";base64,"
                      +:+ jsStr (GenAI.data payload)) ∧
  (∀ e, handleApiResponse response context = Throw e → isErrorObj e).
Proof.
  unfold handleApiResponse. cbv zeta. rewrite inlinePayloadOf_chain.
  destruct (blockReasonOf response) as [reason|] eqn:Hb.
  - destruct (blockReasonOf_Some _ _ Hb) as [Hr Ht]. rewrite Hr. cbn [truthyOpt].
    rewrite Ht. split; [|by intros e [= <-]]. split; [done|]. by intros [? _].
  - rewrite (blockReasonOf_None _ Hb).
    destruct (inlinePayloadOf response) as [payload|].
    + split; [|done]. split.
      * intros [= <-]. split; [done|]. by exists payload.
      * by intros (_ & p & [= <-] & ->).
    + split.
      * split; [by destruct (_ && _)|]. by intros (_ & p & ? & _).
      * intros e. destruct (_ && _); by intros [= <-].
Qed.

(** ** The crop *)

(** X16. A crop whose canvas gives a PNG data URL appends the cropped file and
    forgets the selection; the error shown before, if any, stays.  With
    the selection gone, applying the crop once more only reports that no
    area is selected. *)
Theorem crop_appends_and_forgets_selection (env : Env) (s : AppState)
    (selection : CropRect) (data bstr : string) :
  completedCrop s = Some selection →
  imgRefCurrent env = true → canvasContext env = true →
  canvasToDataURL env selection = dataUrlOf "image/png" data →
  occursIn ","%char data = false →
  atob env data = Return bstr →
  ∃ s', handleApplyCrop env s = Return s' ∧
        currentImage s'
          = Some {| name := pngName "cropped" env; type := "image/png";
                    bytes := charCodes bstr |} ∧
        crop s' = None ∧ completedCrop s' = None ∧
        error s' = error s ∧
        handleApplyCrop env s'
          = Return (s' |> setError (Some "Please select an area to crop.")).
Proof.
  intros Hsel Href Hctx Hurl Hdata Hatob.
  unfold handleApplyCrop at 1. rewrite Hsel, Href, Hctx, Hurl. cbn [negb].
  rewrite (dataURLtoFile_dataUrlOf env "image/png" data bstr _ eq_refl Hdata Hatob).
  cbn [bindO]. eexists. split; [reflexivity|].
  split; [apply (currentImage_addImageToHistory _)|]. by repeat split.
Qed.

Lemma crop_appends_and_forgets_selection_witness :
  ∃ s', handleApplyCrop sampleEnv cropping = Return s' ∧
        (bytes <$> currentImage s') = Some [99; 114; 111; 112] ∧
        completedCrop s' = None.
Proof.
  destruct (crop_appends_and_forgets_selection sampleEnv cropping (mkCrop 0 0 16 16)
              "Y3JvcA==" "crop" eq_refl eq_refl eq_refl eq_refl eq_refl eq_refl)
    as (s' & Hs' & Hcur & _ & Hsel & _).
  exists s'. split; [exact Hs'|]. rewrite Hcur. split; [reflexivity|exact Hsel].
Defined.

(** ** Starting over *)

(** X17. "Upload New" leaves nothing behind: no entry, no current or original
    image, no error, no hotspot and an empty edit prompt.  Undo, redo and
    reset then do nothing, every operation request is refused, and a
    following upload starts a history of its own.  The animate prompt and
    the active tab are kept. *)
Theorem upload_new_leaves_nothing_behind (s : AppState) :
  let e := handleUploadNew s in
  history e = [] ∧ historyIndex e = -1 ∧
  currentImage e = None ∧ originalImage e = None ∧
  error e = None ∧ editHotspot e = None ∧ displayHotspot e = None ∧ prompt e = "" ∧
  handleUndo e = e ∧ handleRedo e = e ∧ handleReset e = e ∧
  (∀ req, dispatched req e = false) ∧
  (∀ f, history (handleImageUpload f e) = [f] ∧
        currentImage (handleImageUpload f e) = Some f) ∧
  animatePrompt e = animatePrompt s ∧ activeTab e = activeTab s.
Proof. cbv zeta. repeat split. Qed.

(** ** Blank instructions *)

Lemma trim_blank (p : string) : blank p = true → trim p = "".
Proof.
  unfold trim. induction p as [|c p IH]; [done|]. cbn [blank trimStart].
  intros [Hc Hp]%andb_true_iff. rewrite Hc. by apply IH.
Qed.

(** X18. An instruction made of white space only is refused for an edit and
    for an animation before anything is sent: the history stays and the
    error asks for a description.  A filter and an adjustment are not
    checked: they are dispatched with a blank instruction as with any
    other. *)
Theorem blank_instruction_is_refused_for_edit_and_animation
    (env : Env) (fuel : nat) (s : AppState) (img : File) (p : string) :
  currentImage s = Some img → isCurrentItemVideo s = false →
  blank p = true →
  handleGenerateVideo env fuel p s
    = Some (s |> setError (Some "Please enter a description for the animation.")) ∧
  handleGenerate env (setPrompt p s)
    = (setPrompt p s |> setError (Some "Please enter a description for your edit.")) ∧
  dispatched (Filter p) s = true ∧ dispatched (Adjustment p) s = true.
Proof.
  intros Himg Hvideo Hblank.
  pose proof (trim_blank p Hblank) as Htrim.
  split; [|split].
  - unfold handleGenerateVideo. by rewrite Himg, Hvideo, Htrim.
  - unfold handleGenerate.
    change (currentImage (setPrompt p s)) with (currentImage s).
    change (isCurrentItemVideo (setPrompt p s)) with (isCurrentItemVideo s).
    change (prompt (setPrompt p s)) with p.
    by rewrite Himg, Hvideo, Htrim.
  - unfold dispatched. by rewrite Himg, Hvideo.
Qed.

Lemma blank_instruction_is_refused_for_edit_and_animation_witness :
  handleGenerateVideo sampleEnv 30 "   " uploaded
    = Some (uploaded |> setError (Some "Please enter a description for the animation.")) ∧
  dispatched (Filter "   ") uploaded = true.
Proof.
  destruct (blank_instruction_is_refused_for_edit_and_animation sampleEnv 30 uploaded
              photo "   " eq_refl eq_refl eq_refl) as (Hv & _ & Hf & _).
  split; [exact Hv|exact Hf].
Defined.

(** ** A source file that cannot be read *)

Lemma fileToPart_unreadable (env : Env) (img : File) (e : Thrown) :
  readAsDataURL env img = Throw e → fileToPart env img = Throw e.
Proof. intros H. unfold fileToPart. by rewrite H. Qed.

(** X19. Every one of the eight operations reads the source file first.  When
    the reader rejects, no request is made: the outcome is the same for
    every answer the service would have given, the history stays, and the
    error shown is the failure text of the operation followed by the
    message of what the reader threw ("An unknown error occurred." for a
    rejection that is not an [Error]). *)
Theorem unreadable_file_fails_every_operation (env : Env) (fuel : nat)
    (req : OperationRequest) (s : AppState) (img : File) (e : Thrown) :
  currentImage s = Some img →
  dispatched req s = true →
  readAsDataURL env img = Throw e →
  ∃ s', perform env fuel req s = Some s' ∧
        history s' = history s ∧ historyIndex s' = historyIndex s ∧
        error s' = Some (failurePrefix req +:+ errorMessageOf e) ∧
        isLoading s' = false.
Proof.
  intros Himg Hguard Hread%fileToPart_unreadable.
  unfold dispatched in Hguard. rewrite Himg in Hguard.
  apply andb_true_iff in Hguard as [Hvideo%negb_true_iff Hguard].
  destruct req; cbn [perform failurePrefix];
    unfold handleGenerate, handleApplyFilter, handleApplyAdjustment,
      handleGenerate3DView, handleRemoveBackground, handleRestorePhoto,
      handleGroupRestorePhoto, handleGenerateVideo,
      generateEditedImage, generateFilteredImage, generateAdjustedImage,
      generate3DView, removeBackground, restorePhoto, groupRestorePhoto;
    rewrite Himg, Hvideo, ?Hread; cbn [bindO].
  - apply andb_true_iff in Hguard as [-> Hh].
    destruct (editHotspot s); [|discriminate]. cbn [negb bindO]. by eexists.
  - by eexists.
  - by eexists.
  - by eexists.
  - by eexists.
  - by eexists.
  - by eexists.
  - rewrite Hguard. cbn [negb]. rewrite generateVideoFromImage_unfold, Hread.
    by eexists.
Qed.

Lemma unreadable_file_fails_every_operation_witness :
  ∃ s', perform
          {| API_KEY := "key"; dateNow := 0; invalidCharacterMessage := "Invalid character";
             imgRefCurrent := true; canvasContext := true;
             canvasToDataURL := λ _, ""; readAsDataURL := λ _, Throw NonError;
             generateContent := λ _ _, Return (imageResponse "image/png" "aGk=");
             generateVideos := λ _ _, Return pendingOperation;
             getVideosOperation := λ _ operation, Return operation;
             fetch := λ _, Throw NonError |} 0 ThreeDView uploaded = Some s' ∧
        history s' = [photo] ∧
        error s' = Some "Failed to generate the 3D view. An unknown error occurred.".
Proof.
  destruct (unreadable_file_fails_every_operation
              {| API_KEY := "key"; dateNow := 0; invalidCharacterMessage := "Invalid character";
             imgRefCurrent := true;
                 canvasContext := true;
                 canvasToDataURL := λ _, ""; readAsDataURL := λ _, Throw NonError;
                 generateContent := λ _ _, Return (imageResponse "image/png" "aGk=");
                 generateVideos := λ _ _, Return pendingOperation;
                 getVideosOperation := λ _ operation, Return operation;
                 fetch := λ _, Throw NonError |} 0 ThreeDView uploaded photo NonError
              eq_refl eq_refl eq_refl) as (s' & Hs' & Hh & _ & He & _).
  exists s'. split; [exact Hs'|]. split; [exact Hh|exact He].
Defined.

(** ** What an operation leaves alone *)

(** X20. No operation and no crop rewrites the past: the entries up to the
    cursor are the same afterwards, at most one entry stands after them,
    and the cursor either stays or moves one step forward. *)
Theorem operation_never_rewrites_the_past (s s' : AppState) :
  0 ≤ historyIndex s < Z.of_nat (length (history s)) →
  (∃ env fuel req, perform env fuel req s = Some s') ∨
  (∃ env, handleApplyCrop env s = Return s') →
  take (Z.to_nat (historyIndex s + 1)) (history s')
    = take (Z.to_nat (historyIndex s + 1)) (history s) ∧
  historyIndex s ≤ historyIndex s' ≤ historyIndex s + 1 ∧
  (historyIndex s' = historyIndex s → history s' = history s) ∧
  (historyIndex s' = historyIndex s + 1 →
     Z.of_nat (length (history s')) = historyIndex s + 2).
Proof.
  intros Hidx Hstep.
  assert (Hcases : (history s' = history s ∧ historyIndex s' = historyIndex s) ∨
                   ∃ f, history s' = history (addImageToHistory f s) ∧
                        historyIndex s' = historyIndex (addImageToHistory f s)).
  { destruct Hstep as [(env & fuel & req & Hp)|(env & Hc)].
    - destruct (perform_appends_only_on_success _ _ _ _ _ Hp)
        as [?|(img & tr & r & f & _ & _ & Hh & Hi)]; [by left|right; by exists f].
    - unfold handleApplyCrop in Hc.
      destruct (completedCrop s); [|injection Hc as <-; by left].
      destruct (imgRefCurrent env); cbn [negb] in Hc; [|injection Hc as <-; by left].
      destruct (canvasContext env); cbn [negb] in Hc; [|injection Hc as <-; by left].
      destruct (dataURLtoFile _ _ _) as [f|e]; cbn [bindO] in Hc; [|done].
      injection Hc as <-. right. by exists f. }
  destruct Hcases as [[-> ->]|(f & Hh & Hi)].
  - split; [done|]. split; [lia|]. split; [done|]. lia.
  - rewrite addImageToHistory_history in Hh by lia.
    rewrite addImageToHistory_index, addImageToHistory_history in Hi by lia.
    rewrite length_app, length_take in Hi. cbn [length] in Hi.
    rewrite Hh, Hi. split.
    { rewrite take_app_le by (rewrite length_take; lia).
      by rewrite take_take, Nat.min_id. }
    split; [lia|]. split; [lia|].
    intros _. rewrite length_app, length_take. cbn [length]. lia.
Qed.

Lemma operation_never_rewrites_the_past_witness :
  take 1 (history (handleApplyFilter sampleEnv "vintage" uploaded)) = [photo] ∧
  historyIndex (handleApplyFilter sampleEnv "vintage" uploaded) = 1.
Proof.
  destruct (operation_never_rewrites_the_past uploaded
              (handleApplyFilter sampleEnv "vintage" uploaded))
    as (Htake & _ & _ & _).
  - vm_compute. split; [discriminate|reflexivity].
  - left. by exists sampleEnv, 0%nat, (Filter "vintage").
  - split; [exact Htake|reflexivity].
Defined.
